(** * UTS_BackendProgramming: login throttling and users listing

    A shallow embedding of

    - [src/api/components/authentication/authentication-repository.js]
      and [authentication-service.js] (module [Auth]), and
    - the users controller: its listing (module [Users]) and its other
      handlers (module [Controllers]),

    together with the properties of the specification that are settled on
    them.

    Conventions of the embedding.

    - A [Date] is its time value, an integer number of milliseconds
      between -8.64e15 and 8.64e15; [new Date(value)] with a value outside
      of that range is an Invalid Date, which compares false with every
      date. A stored [updatedOn] is a valid date.
    - [new Date()] reads the system clock, which is an oracle giving the
      k-th reading, the number of readings taken so far being part of the
      world. The clock is taken to read a valid date at least 10 seconds
      before the largest one.
    - The collaborators answer: a rejection of the repository, of the
      password matcher or of the token generator, which would reject the
      call with the error of the collaborator, is not modelled.
    - [null] and [undefined] are [None]; a missing user document is [None],
      and reading a property of it is the fault [TypeError].
    - A rejected promise of an [async] function is the outcome [Throw].
    - The repository calls that the service does not [await] are taken to
      have their effect in program order (one request at a time).
    - [console.log] has no effect on the store or on the result and is
      left out. *)

From Stdlib Require Import ZArith String Ascii List Bool Lia Permutation Sorted.
Import ListNotations.

Local Open Scope string_scope.
Local Open Scope list_scope.
Local Open Scope Z_scope.

(** ** Dates *)

Module Date.

(** The largest time value of a [Date], in milliseconds. *)
Definition maxTime : Z := 8640000000000000.

Definition inRange (value : Z) : bool :=
  (- maxTime <=? value) && (value <=? maxTime).

(** A valid [Date], by its time value. *)
Record t : Type := mk {
  getTime : Z;
  valid : inRange getTime = true
}.

(** [new Date(value)]; [None] is an Invalid Date. *)
Definition ofValue (value : Z) : option t :=
  match Bool.bool_dec (inRange value) true with
  | left H => Some (mk value H)
  | right _ => None
  end.

(** [a > b] and [a < b] where [a] may be an Invalid Date: its time value
    is [NaN] and the comparison is false. *)
Definition gtb (a : option t) (b : t) : bool :=
  match a with
  | Some x => getTime x >? getTime b
  | None => false
  end.

Definition ltb (a : option t) (b : t) : bool :=
  match a with
  | Some x => getTime x <? getTime b
  | None => false
  end.

Definition epoch : t := mk 0 eq_refl.

(** For examples: the date with a given time value, the epoch when there
    is none. *)
Definition fromTime (value : Z) : t :=
  match ofValue value with
  | Some d => d
  | None => epoch
  end.

End Date.

(** ** The system clock *)

Module Clock.

(** The readings of the clock, one after the other. *)
Record t : Type := mk {
  read : nat -> Date.t;
  early : forall k, Date.getTime (read k) + 10000 <= Date.maxTime
}.

(** A clock that always reads [d]. *)
Definition always (d : Date.t)
           (H : (Date.getTime d + 10000 <=? Date.maxTime) = true) : t :=
  {| read := fun _ => d; early := fun _ => proj1 (Z.leb_le _ _) H |}.

End Clock.

Coercion Date.getTime : Date.t >-> Z.
Coercion Clock.read : Clock.t >-> Funclass.

(** ** The user document *)

Module User.

Record t : Type := mk {
  id : string;
  email : string;
  name : string;
  password : string;
  attempt : Z;
  updatedOn : option Date.t
}.

End User.

(** ** Errors *)

Inductive errorType : Type :=
| FORBIDDEN
| UNPROCESSABLE_ENTITY
| INVALID_PASSWORD
| INVALID_CREDENTIALS
| EMAIL_ALREADY_TAKEN.

Inductive error : Type :=
| TypeError
| ResponderError (type : errorType) (message : string).

Definition errorResponder (type : errorType) (message : string) : error :=
  ResponderError type message.

(** ** Authentication *)

Module Auth.

(** The update document of [User.updateOne(filter, { $set: ... })]: the
    fields that are written. *)
Record setDoc : Type := mkSet {
  set_updatedOn : option Date.t;
  set_attempt : option Z
}.

Definition applySet (s : setDoc) (u : User.t) : User.t :=
  {| User.id := User.id u;
     User.email := User.email u;
     User.name := User.name u;
     User.password := User.password u;
     User.attempt :=
       match set_attempt s with Some a => a | None => User.attempt u end;
     User.updatedOn :=
       match set_updatedOn s with
       | Some d => Some d
       | None => User.updatedOn u
       end |}.

(** [User.findOne({ email })]: the first document with that email. *)
Fixpoint findOne (email : string) (docs : list User.t) : option User.t :=
  match docs with
  | [] => None
  | u :: rest =>
      if String.eqb (User.email u) email then Some u else findOne email rest
  end.

(** [User.updateOne({ email }, { $set })]: the first document with that
    email is updated; nothing happens when there is none. *)
Fixpoint updateOne (email : string) (s : setDoc) (docs : list User.t)
  : list User.t :=
  match docs with
  | [] => []
  | u :: rest =>
      if String.eqb (User.email u) email
      then applySet s u :: rest
      else u :: updateOne email s rest
  end.

(** The calls to the collaborators, in the order they are made. *)
Inductive event : Type :=
| GetUserByEmail (email : string)
| LoginAttempt (email : string) (attempt : Z)
| LoginSuccess (email : string)
| ResetAttempt (email : string)
| PasswordMatched (password hash : string)
| GenerateToken (email id : string).

Record world : Type := mkWorld {
  users : list User.t;
  ticks : nat;
  trace : list event
}.

Inductive result (A : Type) : Type :=
| Ok (a : A)
| Throw (e : error).
Arguments Ok {A} a.
Arguments Throw {A} e.

Definition M (A : Type) : Type := world -> result A * world.

Definition ret {A} (a : A) : M A := fun w => (Ok a, w).

Definition bind {A B} (m : M A) (k : A -> M B) : M B :=
  fun w =>
    match m w with
    | (Ok a, w') => k a w'
    | (Throw e, w') => (Throw e, w')
    end.

Definition throw {A} (e : error) : M A := fun w => (Throw e, w).

Declare Scope js_scope.
Delimit Scope js_scope with js.
Notation "x <- m ;; k" := (bind m (fun x => k))
  (at level 100, m at next level, right associativity) : js_scope.
Notation "m ;; k" := (bind m (fun _ => k))
  (at level 100, right associativity) : js_scope.
Local Open Scope js_scope.

Definition emit (e : event) : M unit :=
  fun w => (Ok tt, {| users := users w; ticks := ticks w;
                      trace := trace w ++ [e] |}).

Definition modifyUsers (f : list User.t -> list User.t) : M unit :=
  fun w => (Ok tt, {| users := f (users w); ticks := ticks w;
                      trace := trace w |}).

(** Reading a property of [user]: a [TypeError] when [user] is [null]. *)
Definition deref (user : option User.t) : M User.t :=
  match user with
  | Some u => ret u
  | None => throw TypeError
  end.

Record session : Type := mkSession {
  s_email : string;
  s_name : string;
  user_id : string;
  token : string
}.

Section Collaborators.

(** The system clock, the password matcher ([utils/password]) and the
    token generator ([utils/session-token]). *)
Variable clock : Clock.t.
Variable passwordMatchedFn : string -> string -> bool.
Variable generateTokenFn : string -> string -> string.

Definition newDate : M Date.t :=
  fun w => (Ok (clock (ticks w)),
            {| users := users w; ticks := S (ticks w);
               trace := trace w |}).

Definition passwordMatched (password hash : string) : M bool :=
  emit (PasswordMatched password hash) ;;
  ret (passwordMatchedFn password hash).

Definition generateToken (email id : string) : M string :=
  emit (GenerateToken email id) ;;
  ret (generateTokenFn email id).

(** *** authentication-repository.js *)

Definition getUserByEmail (email : string) : M (option User.t) :=
  emit (GetUserByEmail email) ;;
  fun w => (Ok (findOne email (users w)), w).

Definition loginAttempt (email : string) (attempt : Z) : M unit :=
  emit (LoginAttempt email attempt) ;;
  now <- newDate ;;
  modifyUsers
    (updateOne email
       {| set_updatedOn := Some now; set_attempt := Some attempt |}).

Definition loginSuccess (email : string) : M unit :=
  emit (LoginSuccess email) ;;
  modifyUsers
    (updateOne email {| set_updatedOn := None; set_attempt := Some 0 |}).

Definition resetAttempt (email : string) : M unit :=
  emit (ResetAttempt email) ;;
  modifyUsers
    (updateOne email {| set_updatedOn := None; set_attempt := Some 0 |}).

(** *** authentication-service.js *)

Definition lockedMessage : string :=
  "Too many failed login attempts,wait 30 Minutes before try again !!".

Definition checkLoginCredentials (email password : string)
  : M (option session) :=
  user <- getUserByEmail email ;;
  u <- deref user ;;
  match User.updatedOn u with
  | Some updatedOn =>
      let after30Minutes :=
        Date.ofValue (Date.getTime updatedOn + 1 * 10 * 1000) in
      now <- newDate ;;
      if (User.attempt u >? 5) && Date.gtb after30Minutes now then
        throw (errorResponder FORBIDDEN lockedMessage)
      else if (User.attempt u >? 5) && Date.ltb after30Minutes now then
        resetAttempt email
      else ret tt
  | None => ret tt
  end ;;
  let userPassword :=
    match user with
    | Some u => User.password u
    | None => "<RANDOM_PASSWORD_FILLER>"
    end in
  passwordChecked <- passwordMatched password userPassword ;;
  match user, passwordChecked with
  | Some u, true =>
      tok <- generateToken (User.email u) (User.id u) ;;
      ret (Some {| s_email := User.email u;
                   s_name := User.name u;
                   user_id := User.id u;
                   token := tok |})
  | _, _ =>
      user2 <- getUserByEmail email ;;
      u2 <- deref user2 ;;
      loginAttempt email (User.attempt u2 + 1) ;;
      ret None
  end.

End Collaborators.

(** *** The runs of [checkLoginCredentials], named

    The worlds and results the case analysis of the service refers to. *)

Section Runs.

Variable clock : Clock.t.
Variable passwordMatchedFn : string -> string -> bool.
Variable generateTokenFn : string -> string -> string.

(** The world after the lookup of line 14. *)
Definition looked (w : world) (email : string) : world :=
  {| users := users w; ticks := ticks w;
     trace := trace w ++ [GetUserByEmail email] |}.

(** The world after the lockout evaluation of lines 16-32 that neither
    throws nor resets. *)
Definition evaluated (w : world) (email : string) (u : User.t) : world :=
  {| users := users w;
     ticks := match User.updatedOn u with
              | Some _ => S (ticks w)
              | None => ticks w
              end;
     trace := trace w ++ [GetUserByEmail email] |}.

(** The world after the expired-lock branch. *)
Definition afterReset (w : world) (email : string) : world :=
  {| users := updateOne email
                {| set_updatedOn := None; set_attempt := Some 0 |}
                (users w);
     ticks := S (ticks w);
     trace := trace w ++ [GetUserByEmail email; ResetAttempt email] |}.

(** Lines 34-57, from the world [w1] the lockout evaluation leaves. *)
Definition verdict (w1 : world) (email password : string) (u : User.t)
  : result (option session) * world :=
  if passwordMatchedFn password (User.password u) then
    (Ok (Some {| s_email := User.email u; s_name := User.name u;
                 user_id := User.id u;
                 token := generateTokenFn (User.email u) (User.id u) |}),
     {| users := users w1; ticks := ticks w1;
        trace := trace w1
                 ++ [PasswordMatched password (User.password u);
                     GenerateToken (User.email u) (User.id u)] |})
  else
    match findOne email (users w1) with
    | Some u2 =>
        (Ok None,
         {| users := updateOne email
                       {| set_updatedOn := Some (clock (ticks w1));
                          set_attempt := Some (User.attempt u2 + 1) |}
                       (users w1);
            ticks := S (ticks w1);
            trace := trace w1
                     ++ [PasswordMatched password (User.password u);
                         GetUserByEmail email;
                         LoginAttempt email (User.attempt u2 + 1)] |})
    | None =>
        (Throw TypeError,
         {| users := users w1; ticks := ticks w1;
            trace := trace w1
                     ++ [PasswordMatched password (User.password u);
                         GetUserByEmail email] |})
    end.


Definition expired (w : world) (u : User.t) : Prop :=
  match User.updatedOn u with
  | Some t => User.attempt u > 5 /\ t + 10000 < clock (ticks w)
  | None => False
  end.

Definition passes (w : world) (u : User.t) : Prop :=
  match User.updatedOn u with
  | Some t =>
      User.attempt u <= 5
      \/ t + 10000 = clock (ticks w)
      \/ Date.maxTime < t + 10000
  | None => True
  end.

(** Line 24 throws: the user is locked and the end of the window,
    [updatedOn + 10000], is a valid date. *)
Definition refused (w : world) (u : User.t) : Prop :=
  match User.updatedOn u with
  | Some t =>
      User.attempt u > 5
      /\ clock (ticks w) < t + 10000
      /\ t + 10000 <= Date.maxTime
  | None => False
  end.

(** The operations of the repository that write a user document. *)
Inductive mutation : Type :=
| ByLoginAttempt (attempt : Z)
| ByLoginSuccess
| ByResetAttempt.

Definition mutate (m : mutation) (email : string) : M unit :=
  match m with
  | ByLoginAttempt attempt => loginAttempt clock email attempt
  | ByLoginSuccess => loginSuccess email
  | ByResetAttempt => resetAttempt email
  end.


End Runs.

End Auth.

(** ** Users listing *)

Module Users.

(** *** JavaScript numbers and strings, as far as the controller uses them

    The numbers of the controller are integers, [NaN] or an infinity
    (a quotient is rounded up by [Math.ceil] at once); the sign of zero is
    not kept: nothing in the controller observes it. [parseInt] rounds
    to a double. The sums and products of the controller are kept exact:
    they only serve as indices into an array and in comparisons with its
    length, which is below 2^32, where the rounding of a double, at 2^53
    and above, changes nothing. *)
Inductive number : Type :=
| Int (z : Z)
| NaN
| PosInfinity
| NegInfinity.

(** [ToNumber] of a number or [null]. *)
Definition toNumber (v : option number) : number :=
  match v with
  | Some n => n
  | None => Int 0
  end.

Definition neg (a : number) : number :=
  match a with
  | Int x => Int (- x)
  | NaN => NaN
  | PosInfinity => NegInfinity
  | NegInfinity => PosInfinity
  end.

Definition add (a b : number) : number :=
  match a, b with
  | NaN, _ | _, NaN => NaN
  | Int x, Int y => Int (x + y)
  | PosInfinity, NegInfinity | NegInfinity, PosInfinity => NaN
  | PosInfinity, _ | _, PosInfinity => PosInfinity
  | NegInfinity, _ | _, NegInfinity => NegInfinity
  end.

Definition sub (a b : number) : number := add a (neg b).

(** The sign of a number that is not [NaN]: -1, 0 or 1. *)
Definition sgn (a : number) : Z :=
  match a with
  | Int x => Z.sgn x
  | PosInfinity => 1
  | NegInfinity => -1
  | NaN => 0
  end.

Definition ofSign (s : Z) : number :=
  if s =? 0 then NaN else if s >? 0 then PosInfinity else NegInfinity.

Definition mul (a b : number) : number :=
  match a, b with
  | NaN, _ | _, NaN => NaN
  | Int x, Int y => Int (x * y)
  | _, _ => ofSign (sgn a * sgn b)
  end.

(** [Math.ceil(a / b)]. *)
Definition ceilDiv (a b : number) : number :=
  match a, b with
  | NaN, _ | _, NaN => NaN
  | Int x, Int y =>
      if y =? 0 then ofSign (Z.sgn x) else Int (- ((- x) / y))
  | Int _, _ => Int 0
  | _, Int y => ofSign (sgn a * (if y <? 0 then -1 else 1))
  | _, _ => NaN
  end.

(** [a < b]; false as soon as one side is [NaN]. *)
Definition lt (a b : number) : bool :=
  match a, b with
  | NaN, _ | _, NaN => false
  | Int x, Int y => x <? y
  | NegInfinity, NegInfinity | PosInfinity, _ => false
  | NegInfinity, _ => true
  | Int _, PosInfinity => true
  | Int _, NegInfinity => false
  end.

Definition gt (a b : number) : bool := lt b a.

(** [n || null]: [NaN] and zero are falsy. *)
Definition orNull (n : number) : option number :=
  match n with
  | NaN => None
  | Int z => if z =? 0 then None else Some n
  | _ => Some n
  end.

(** Strings are sequences of code units below 256; among them the white
    space of [parseInt] is TAB, LF, VT, FF, CR, SP and NBSP. *)
Definition isStrWhiteSpaceChar (c : ascii) : bool :=
  match nat_of_ascii c with
  | 9%nat | 10%nat | 11%nat | 12%nat | 13%nat | 32%nat | 160%nat => true
  | _ => false
  end.

Fixpoint trimStart (s : string) : string :=
  match s with
  | String c rest => if isStrWhiteSpaceChar c then trimStart rest else s
  | EmptyString => s
  end.

Definition digitValue (c : ascii) : option Z :=
  let n := Z.of_nat (nat_of_ascii c) in
  if (48 <=? n) && (n <=? 57) then Some (n - 48)
  else if (97 <=? n) && (n <=? 122) then Some (n - 87)
  else if (65 <=? n) && (n <=? 90) then Some (n - 55)
  else None.

(** The value of the longest prefix of radix-[R] digits, [None] when it
    is empty. *)
Fixpoint digits (R : Z) (s : string) (acc : option Z) : option Z :=
  match s with
  | String c rest =>
      match digitValue c with
      | Some d =>
          if d <? R
          then digits R rest
                 (Some (R * (match acc with Some a => a | None => 0 end) + d))
          else acc
      | None => acc
      end
  | EmptyString => acc
  end.

(** The double nearest to the integer [v >= 0], ties to even: [v] itself
    below 2^53, else [v] rounded to 53 significant bits, and [Infinity]
    from 2^1024 on. *)
Definition toDouble (v : Z) : number :=
  if v <? 2 ^ 53 then Int v
  else
    let e := Z.log2 v - 52 in
    let q := v / 2 ^ e in
    let r := v mod 2 ^ e in
    let half := 2 ^ (e - 1) in
    let rounded :=
      if r <? half then q
      else if half <? r then q + 1
      else if Z.even q then q else q + 1 in
    if 2 ^ 1024 <=? rounded * 2 ^ e then PosInfinity
    else Int (rounded * 2 ^ e).

(** [parseInt(input)] without a radix; an absent query parameter is
    [undefined] and is parsed as the string "undefined". The value of
    the digits is rounded to the nearest double, as V8 does. *)
Definition parseInt (input : option string) : number :=
  let inputString :=
    match input with Some s => s | None => "undefined" end in
  let S0 := trimStart inputString in
  let '(sign, S1) :=
    match S0 with
    | String "-" rest => (-1, rest)
    | String "+" rest => (1, rest)
    | _ => (1, S0)
    end in
  let '(R, S2) :=
    match S1 with
    | String "0" (String "x" rest) | String "0" (String "X" rest) =>
        (16, rest)
    | _ => (10, S1)
    end in
  match digits R S2 None with
  | Some v => if sign <? 0 then neg (toDouble v) else toDouble v
  | None => NaN
  end.

(** [s.split(sep)] for a one-character separator. *)
Fixpoint split (sep : ascii) (s : string) : list string :=
  match s with
  | EmptyString => [EmptyString]
  | String c rest =>
      if Ascii.eqb c sep then EmptyString :: split sep rest
      else
        match split sep rest with
        | piece :: pieces => String c piece :: pieces
        | [] => [String c EmptyString]
        end
  end.

(** [a.slice(start, end)]. *)
Definition relativeIndex (len : Z) (n : number) : Z :=
  match n with
  | NaN => 0
  | NegInfinity => 0
  | PosInfinity => len
  | Int z => if z <? 0 then Z.max (len + z) 0 else Z.min z len
  end.

Definition slice {A} (a : list A) (start end_ : number) : list A :=
  let len := Z.of_nat (length a) in
  let k := relativeIndex len start in
  let final := relativeIndex len end_ in
  firstn (Z.to_nat (final - k)) (skipn (Z.to_nat k) a).

(** [a.sort(compare)]: the sort is stable; with a consistent comparator
    every conforming implementation gives the list below. A comparator
    that throws makes the sort throw ([None]). *)
Fixpoint insert {A} (compare : A -> A -> option Z) (x : A) (l : list A)
  : option (list A) :=
  match l with
  | [] => Some [x]
  | y :: rest =>
      match compare x y with
      | None => None
      | Some c =>
          if c >? 0 then
            match insert compare x rest with
            | Some rest' => Some (y :: rest')
            | None => None
            end
          else Some (x :: y :: rest)
      end
  end.

Fixpoint sort {A} (compare : A -> A -> option Z) (l : list A)
  : option (list A) :=
  match l with
  | [] => Some []
  | x :: rest =>
      match sort compare rest with
      | Some sorted => insert compare x sorted
      | None => None
      end
  end.

(** *** The controller *)

Module Query.
Record t : Type := mk {
  page_number : option string;
  page_size : option string;
  search : option string;
  sort : option string
}.
End Query.

Record responseData : Type := mkResponse {
  page_number : option number;
  page_size : option number;
  count : number;
  total_pages : number;
  has_previous_page : bool;
  has_next_page : bool;
  users : list User.t
}.

Inductive outcome : Type :=
| Json (status : Z) (body : responseData)
| Next (e : error).

Definition includes (l : list string) (x : option string) : bool :=
  match x with
  | Some s => existsb (String.eqb s) l
  | None => false
  end.

(** The argument is a string or [undefined] ([None]). *)
Definition isValidSortField (field : option string) : string :=
  match field with
  | Some f => if includes ["email"; "name"] field then f else "email"
  | None => "email"
  end.

Definition isValidSortOrder (order : option string) : string :=
  match order with
  | Some o => if includes ["asc"; "desc"] order then o else "asc"
  | None => "asc"
  end.

(** The result is a string or [null] ([None]). *)
Definition isValidSearchField (field : option string) : option string :=
  if includes ["email"; "name"] field then field else None.

(** [request.query.x ? ... : ...]: [undefined] and the empty string are
    falsy. *)
Definition truthy (v : option string) : option string :=
  match v with
  | Some EmptyString => None
  | _ => v
  end.

Definition searchFieldOf (request : Query.t) : option string :=
  match truthy (Query.search request) with
  | Some search => isValidSearchField (nth_error (split ":" search) 0)
  | None => None
  end.

Definition searchKeyOf (request : Query.t) : option string :=
  match truthy (Query.search request) with
  | Some search => nth_error (split ":" search) 1
  | None => None
  end.

Definition sortFieldOf (request : Query.t) : string :=
  match truthy (Query.sort request) with
  | Some sort => isValidSortField (nth_error (split ":" sort) 0)
  | None => "email"
  end.

Definition sortOrderOf (request : Query.t) : string :=
  match truthy (Query.sort request) with
  | Some sort => isValidSortOrder (nth_error (split ":" sort) 1)
  | None => "asc"
  end.

(** [user[key].localeCompare]: only the string properties of a user
    have the method; on the other keys the call is a [TypeError]. *)
Definition prop (u : User.t) (key : string) : option string :=
  if String.eqb key "email" then Some (User.email u)
  else if String.eqb key "name" then Some (User.name u)
  else if String.eqb key "id" then Some (User.id u)
  else if String.eqb key "password" then Some (User.password u)
  else None.

Section Collaborators.

(** [String.prototype.localeCompare], which depends on the locale of
    the host, and [usersService.getUsers], which throws or gives the
    matching users. *)
Variable localeCompare : string -> string -> Z.
Variable usersService_getUsers :
  option number -> option number -> option string -> option string ->
  string -> string -> error + list User.t.

Definition compareUsers (sortOrder sortField : string) (a b : User.t)
  : option Z :=
  if String.eqb sortOrder "asc" then
    match prop a sortField, prop b sortField with
    | Some x, Some y => Some (localeCompare x y)
    | _, _ => None
    end
  else
    match prop b sortField, prop a sortField with
    | Some y, Some x => Some (localeCompare y x)
    | _, _ => None
    end.

(** [a] may stand before [b] in the sorted array: the comparator does
    not ask for [b] first. *)
Definition ordered (sortOrder sortField : string) (a b : User.t) : Prop :=
  exists c, compareUsers sortOrder sortField a b = Some c /\ c <= 0.

Definition getUsers (request : Query.t) : outcome :=
  let pageNumber := orNull (parseInt (Query.page_number request)) in
  let pageSize := orNull (parseInt (Query.page_size request)) in
  let searchField := searchFieldOf request in
  let searchKey := searchKeyOf request in
  let sortField := sortFieldOf request in
  let sortOrder := sortOrderOf request in
  match usersService_getUsers pageNumber pageSize searchField searchKey
          sortField sortOrder with
  | inl e => Next e
  | inr filteredUsers =>
      (* the array is sorted in place: [filteredUsers] and
         [sortedUsers] are the same array from here on *)
      match sort (compareUsers sortOrder sortField) filteredUsers with
      | None => Next TypeError
      | Some sortedUsers =>
          let startIndex :=
            mul (sub (toNumber pageNumber) (Int 1)) (toNumber pageSize) in
          let endIndex := add startIndex (toNumber pageSize) in
          let usersForPage := slice sortedUsers startIndex endIndex in
          let totalUsers := Int (Z.of_nat (length sortedUsers)) in
          let totalPages := ceilDiv totalUsers (toNumber pageSize) in
          let hasPreviousPage := gt (toNumber pageNumber) (Int 1) in
          let hasNextPage := lt endIndex totalUsers in
          Json 200
            {| page_number := pageNumber;
               page_size := pageSize;
               count := Int (Z.of_nat (length sortedUsers));
               total_pages := totalPages;
               has_previous_page := hasPreviousPage;
               has_next_page := hasNextPage;
               users := usersForPage |}
      end
  end.

End Collaborators.

End Users.

(** ** Sample data *)

Module Samples.

Definition alice (attempt : Z) (updatedOn : option Z) : User.t :=
  {| User.id := "1";
     User.email := "alice@example.com";
     User.name := "Alice";
     User.password := "hash-of-secret";
     User.attempt := attempt;
     User.updatedOn := option_map Date.fromTime updatedOn |}.

Definition store (u : User.t) : Auth.world :=
  {| Auth.users := [u]; Auth.ticks := 0; Auth.trace := [] |}.

(** A clock that reads [t] every time (the epoch when [t] is no time the
    clock can read). *)
Definition at_ (t : Z) : Clock.t :=
  match
    Bool.bool_dec (Date.getTime (Date.fromTime t) + 10000 <=? Date.maxTime) true
  with
  | left H => Clock.always (Date.fromTime t) H
  | right _ => Clock.always Date.epoch eq_refl
  end.

Definition matcher (password hash : string) : bool :=
  String.eqb hash ("hash-of-" ++ password)%string.

Definition tokens (email id : string) : string :=
  ("token-" ++ id)%string.

Definition member (id name : string) : User.t :=
  {| User.id := id;
     User.email := (name ++ "@example.com")%string;
     User.name := name;
     User.password := "hash";
     User.attempt := 0;
     User.updatedOn := None |}.

Definition five : list User.t :=
  [member "1" "erin"; member "2" "bob"; member "3" "dave";
   member "4" "alice"; member "5" "carol"].

(** A users service that finds the same users whatever the request. *)
Definition finds (found : list User.t)
  : option Users.number -> option Users.number -> option string ->
    option string -> string -> string -> error + list User.t :=
  fun _ _ _ _ _ _ => inr found.

(** The comparison of strings by code units, one possible
    [localeCompare]. *)
Definition byCodeUnits (a b : string) : Z :=
  match String.compare a b with
  | Lt => -1
  | Eq => 0
  | Gt => 1
  end.

Definition request (page_number page_size search sort : option string)
  : Users.Query.t :=
  {| Users.Query.page_number := page_number;
     Users.Query.page_size := page_size;
     Users.Query.search := search;
     Users.Query.sort := sort |}.

End Samples.

(** ** Sequences of logins *)

Module Sessions.

Import Auth.

(** What a login never writes: the identity of a user. *)
Definition identity (u : User.t) : string * string * string * string :=
  (User.id u, User.email u, User.name u, User.password u).

(** The documents of the users other than [email]. *)
Definition others (email : string) (docs : list User.t) : list User.t :=
  filter (fun u => negb (String.eqb (User.email u) email)) docs.

Section Collaborators.

Variable clock : Clock.t.
Variable passwordMatchedFn : string -> string -> bool.
Variable generateTokenFn : string -> string -> string.

(** The world after [n] calls of [checkLoginCredentials] in a row with the
    same email and password, whatever each of them answers. *)
Fixpoint logins (n : nat) (email password : string) (w : world) : world :=
  match n with
  | O => w
  | S k =>
      logins k email password
        (snd (checkLoginCredentials clock passwordMatchedFn generateTokenFn
                email password w))
  end.

End Collaborators.

End Sessions.

(** ** Pages of the users listing *)

Module Paging.

Import Users.

(** Lines 50-54 of [getUsers]: the users of the page. *)
Definition usersForPage {A} (pageNumber pageSize : option number)
           (sortedUsers : list A) : list A :=
  let startIndex :=
    mul (sub (toNumber pageNumber) (Int 1)) (toNumber pageSize) in
  let endIndex := add startIndex (toNumber pageSize) in
  slice sortedUsers startIndex endIndex.

(** The pages 1, 2, ..., [m] of size [pageSize], one after the other. *)
Definition firstPages {A} (m : nat) (pageSize : Z) (sortedUsers : list A)
  : list A :=
  concat
    (map (fun k =>
            usersForPage (Some (Int (Z.of_nat k + 1))) (Some (Int pageSize))
              sortedUsers)
         (seq 0 m)).

(** [a] stands before [b] in ascending order of the sort field, which is
    the email or the name of a user, as [localeCompare] orders them. *)
Definition ascendingBy (localeCompare : string -> string -> Z)
           (field : string) (a b : User.t) : Prop :=
  (field = "email" -> localeCompare (User.email a) (User.email b) <= 0)
  /\ (field = "name" -> localeCompare (User.name a) (User.name b) <= 0).

(** The users whose property [key] is the string [value]. *)
Definition hasValue (key value : string) (u : User.t) : bool :=
  match prop u key with
  | Some v => String.eqb v value
  | None => false
  end.

Fixpoint hasColon (s : string) : bool :=
  match s with
  | EmptyString => false
  | String c rest => Ascii.eqb c ":" || hasColon rest
  end.

End Paging.

(** ** The other handlers of the users controller *)

Module Controllers.

(** [request.params.id] and the fields of [request.body] that the handlers
    read, each a string or absent ([undefined]). *)
Module Request.
Record t : Type := mk {
  id : string;
  name : option string;
  email : option string;
  password : option string;
  password_confirm : option string;
  password_old : option string;
  password_new : option string
}.
End Request.

(** [a === b] on values that are strings or [undefined]. *)
Definition strictEquals (a b : option string) : bool :=
  match a, b with
  | Some x, Some y => String.eqb x y
  | None, None => true
  | _, _ => false
  end.

(** The calls to the users service, in the order they are made. *)
Inductive call : Type :=
| GetUser (id : string)
| EmailIsRegistered (email : option string)
| CreateUser (name email password : option string)
| UpdateUser (id : string) (name email : option string)
| DeleteUser (id : string)
| CheckPassword (id : string) (password : option string)
| ChangePassword (id : string) (password : option string).

Section Service.

(** The users service is not part of the sources: its state is any type
    [S], the user it returns any type [U], and each of its operations
    throws or answers, possibly changing the state. Where the controller
    only tests an answer for truthiness the answer is a [bool]; a user
    that is not found is [None]. *)
Variable S : Type.
Variable U : Type.

Definition operation (A : Type) : Type := S -> (error + A) * S.

Variable usersService_getUser : string -> operation (option U).
Variable usersService_emailIsRegistered : option string -> operation bool.
Variable usersService_createUser :
  option string -> option string -> option string -> operation bool.
Variable usersService_updateUser :
  string -> option string -> option string -> operation bool.
Variable usersService_deleteUser : string -> operation bool.
Variable usersService_checkPassword :
  string -> option string -> operation bool.
Variable usersService_changePassword :
  string -> option string -> operation bool.

Record world : Type := mkWorld {
  service : S;
  calls : list call
}.

Definition M (A : Type) : Type := world -> (error + A) * world.

Definition ret {A} (a : A) : M A := fun w => (inr a, w).

Definition bind {A B} (m : M A) (k : A -> M B) : M B :=
  fun w =>
    match m w with
    | (inr a, w') => k a w'
    | (inl e, w') => (inl e, w')
    end.

Definition throw {A} (e : error) : M A := fun w => (inl e, w).

(** [await usersService.op(...)]. *)
Definition invoke {A} (c : call) (op : operation A) : M A :=
  fun w =>
    let '(answer, s) := op (service w) in
    (answer, {| service := s; calls := calls w ++ [c] |}).

Declare Scope handler_scope.
Delimit Scope handler_scope with handler.
Notation "x <- m ;; k" := (bind m (fun x => k))
  (at level 100, m at next level, right associativity) : handler_scope.
Local Open Scope handler_scope.

(** What is sent with [response.status(200).json(...)]. *)
Inductive body : Type :=
| UserBody (user : U)
| NameAndEmail (name email : option string)
| IdBody (id : string).

Inductive outcome : Type :=
| Json (status : Z) (b : body)
| Next (e : error).

(** [try { ... return response.status(200).json(b) } catch (error)
    { return next(error) }]. *)
Definition handle (m : M body) : world -> outcome * world :=
  fun w =>
    match m w with
    | (inr b, w') => (Json 200 b, w')
    | (inl e, w') => (Next e, w')
    end.

Definition getUser (request : Request.t) : world -> outcome * world :=
  handle (
    user <- invoke (GetUser (Request.id request))
              (usersService_getUser (Request.id request)) ;;
    match user with
    | None => throw (errorResponder UNPROCESSABLE_ENTITY "Unknown user")
    | Some u => ret (UserBody u)
    end).

Definition createUser (request : Request.t) : world -> outcome * world :=
  handle (
    let name := Request.name request in
    let email := Request.email request in
    let password := Request.password request in
    let password_confirm := Request.password_confirm request in
    if negb (strictEquals password password_confirm) then
      throw (errorResponder INVALID_PASSWORD
               "Password confirmation mismatched")
    else
      emailIsRegistered <- invoke (EmailIsRegistered email)
                             (usersService_emailIsRegistered email) ;;
      if emailIsRegistered : bool then
        throw (errorResponder EMAIL_ALREADY_TAKEN
                 "Email is already registered")
      else
        success <- invoke (CreateUser name email password)
                     (usersService_createUser name email password) ;;
        if negb success then
          throw (errorResponder UNPROCESSABLE_ENTITY "Failed to create user")
        else ret (NameAndEmail name email)).

Definition updateUser (request : Request.t) : world -> outcome * world :=
  handle (
    let id := Request.id request in
    let name := Request.name request in
    let email := Request.email request in
    emailIsRegistered <- invoke (EmailIsRegistered email)
                           (usersService_emailIsRegistered email) ;;
    if emailIsRegistered : bool then
      throw (errorResponder EMAIL_ALREADY_TAKEN "Email is already registered")
    else
      success <- invoke (UpdateUser id name email)
                   (usersService_updateUser id name email) ;;
      if negb success then
        throw (errorResponder UNPROCESSABLE_ENTITY "Failed to update user")
      else ret (IdBody id)).

Definition deleteUser (request : Request.t) : world -> outcome * world :=
  handle (
    let id := Request.id request in
    success <- invoke (DeleteUser id) (usersService_deleteUser id) ;;
    if negb success then
      throw (errorResponder UNPROCESSABLE_ENTITY "Failed to delete user")
    else ret (IdBody id)).

Definition changePassword (request : Request.t) : world -> outcome * world :=
  handle (
    if negb (strictEquals (Request.password_new request)
               (Request.password_confirm request)) then
      throw (errorResponder INVALID_PASSWORD
               "Password confirmation mismatched")
    else
      checked <- invoke (CheckPassword (Request.id request)
                           (Request.password_old request))
                   (usersService_checkPassword (Request.id request)
                      (Request.password_old request)) ;;
      if negb checked then
        throw (errorResponder INVALID_CREDENTIALS "Wrong password")
      else
        changeSuccess <- invoke (ChangePassword (Request.id request)
                                   (Request.password_new request))
                           (usersService_changePassword (Request.id request)
                              (Request.password_new request)) ;;
        if negb changeSuccess then
          throw (errorResponder UNPROCESSABLE_ENTITY
                   "Failed to change password")
        else ret (IdBody (Request.id request))).

End Service.

Arguments mkWorld {S} service calls.
Arguments service {S} w.
Arguments calls {S} w.
Arguments UserBody {U} user.
Arguments NameAndEmail {U} name email.
Arguments IdBody {U} id.
Arguments Json {U} status b.
Arguments Next {U} e.

End Controllers.

(** A small users service for examples: its state is the list of the
    registered emails, user 1 is Alice and her password is "old". *)
Module Directory.

Import Controllers.

Definition getUser (id : string) : operation (list (option string)) (option string) :=
  fun s => (inr (if String.eqb id "1" then Some "Alice"%string else None), s).

Definition emailIsRegistered (email : option string)
  : operation (list (option string)) bool :=
  fun s => (inr (existsb (strictEquals email) s), s).

Definition createUser (name email password : option string)
  : operation (list (option string)) bool :=
  fun s => (inr true, email :: s).

Definition updateUser (id : string) (name email : option string)
  : operation (list (option string)) bool :=
  fun s => (inr true, email :: s).

Definition deleteUser (id : string) : operation (list (option string)) bool :=
  fun s => (inr (String.eqb id "1"), s).

Definition checkPassword (id : string) (password : option string)
  : operation (list (option string)) bool :=
  fun s => (inr (strictEquals password (Some "old"%string)), s).

Definition changePassword (id : string) (password : option string)
  : operation (list (option string)) bool :=
  fun s => (inr true, s).

Definition start : world (list (option string)) :=
  {| service := [Some "alice@example.com"%string]; calls := [] |}.

Definition signUp (email password password_confirm : string) : Request.t :=
  {| Request.id := "";
     Request.name := Some "Bob"%string;
     Request.email := Some email;
     Request.password := Some password;
     Request.password_confirm := Some password_confirm;
     Request.password_old := None;
     Request.password_new := None |}.

Definition newPassword (id old new confirm : string) : Request.t :=
  {| Request.id := id;
     Request.name := None;
     Request.email := None;
     Request.password := None;
     Request.password_confirm := Some confirm;
     Request.password_old := Some old;
     Request.password_new := Some new |}.

Definition rename (id name email : string) : Request.t :=
  {| Request.id := id;
     Request.name := Some name;
     Request.email := Some email;
     Request.password := None;
     Request.password_confirm := None;
     Request.password_old := None;
     Request.password_new := None |}.

End Directory.

(** * Properties of dates *)

Module DateFacts.

Lemma inRange_spec (value : Z) :
  Date.inRange value = true
  <-> - Date.maxTime <= value <= Date.maxTime.
Proof.
  unfold Date.inRange. rewrite andb_true_iff, !Z.leb_le. tauto.
Qed.

Lemma bounds (d : Date.t) : - Date.maxTime <= d <= Date.maxTime.
Proof. apply inRange_spec, Date.valid. Qed.

Lemma ofValue_valid (value : Z) :
  Date.inRange value = true ->
  exists d, Date.ofValue value = Some d /\ Date.getTime d = value.
Proof.
  intros H. unfold Date.ofValue.
  destruct (bool_dec (Date.inRange value) true) as [V | V];
    [| contradiction].
  eexists. split; reflexivity.
Qed.

Lemma ofValue_invalid (value : Z) :
  Date.inRange value = false -> Date.ofValue value = None.
Proof.
  intros H. unfold Date.ofValue.
  destruct (bool_dec (Date.inRange value) true) as [V | V];
    [congruence | reflexivity].
Qed.

(** Line 23: [after30Minutes > now]. *)
Lemma gtb_after (t now : Date.t) :
  Date.gtb (Date.ofValue (t + 1 * 10 * 1000)) now
  = (t + 10000 <=? Date.maxTime) && (now <? t + 10000).
Proof.
  pose proof (bounds t) as B.
  destruct (Date.inRange (t + 1 * 10 * 1000)) eqn:V.
  - destruct (ofValue_valid _ V) as [d [-> E]]. cbn [Date.gtb].
    apply inRange_spec in V. rewrite E, Z.gtb_ltb.
    replace (t + 10000 <=? Date.maxTime) with true
      by (symmetry; apply Z.leb_le; lia).
    reflexivity.
  - rewrite (ofValue_invalid _ V). cbn [Date.gtb].
    replace (t + 10000 <=? Date.maxTime) with false; [reflexivity |].
    symmetry. apply Z.leb_gt.
    destruct (Z_le_gt_dec (t + 10000) Date.maxTime) as [L | L]; [| lia].
    exfalso. assert (X : Date.inRange (t + 1 * 10 * 1000) = true)
      by (apply inRange_spec; unfold Date.maxTime in *; lia).
    congruence.
Qed.

(** Line 28: [after30Minutes < now]. *)
Lemma ltb_after (t now : Date.t) :
  Date.ltb (Date.ofValue (t + 1 * 10 * 1000)) now
  = (t + 10000 <=? Date.maxTime) && (t + 10000 <? now).
Proof.
  pose proof (bounds t) as B.
  destruct (Date.inRange (t + 1 * 10 * 1000)) eqn:V.
  - destruct (ofValue_valid _ V) as [d [-> E]]. cbn [Date.ltb].
    apply inRange_spec in V. rewrite E.
    replace (t + 10000 <=? Date.maxTime) with true
      by (symmetry; apply Z.leb_le; lia).
    reflexivity.
  - rewrite (ofValue_invalid _ V). cbn [Date.ltb].
    replace (t + 10000 <=? Date.maxTime) with false; [reflexivity |].
    symmetry. apply Z.leb_gt.
    destruct (Z_le_gt_dec (t + 10000) Date.maxTime) as [L | L]; [| lia].
    exfalso. assert (X : Date.inRange (t + 1 * 10 * 1000) = true)
      by (apply inRange_spec; unfold Date.maxTime in *; lia).
    congruence.
Qed.

(** The clock reads at least 10 seconds before the largest date. *)
Lemma reading (clock : Clock.t) (k : nat) :
  - Date.maxTime <= clock k <= Date.maxTime - 10000.
Proof.
  pose proof (bounds (clock k)). pose proof (Clock.early clock k). lia.
Qed.

End DateFacts.

(** * Properties of the login throttling *)

Module AuthFacts.

Import Auth.
Local Open Scope js_scope.

(** ** The store *)

Lemma findOne_updateOne (email : string) (s : setDoc) (docs : list User.t) :
  findOne email (updateOne email s docs)
  = option_map (applySet s) (findOne email docs).
Proof.
  induction docs as [| d docs IH]; cbn; [reflexivity |].
  destruct (String.eqb (User.email d) email) eqn:E; cbn; rewrite E; auto.
Qed.

Lemma findOne_updateOne_other (email other : string) (s : setDoc)
      (docs : list User.t) :
  other <> email ->
  findOne other (updateOne email s docs) = findOne other docs.
Proof.
  intros N. induction docs as [| d docs IH]; cbn; [reflexivity |].
  destruct (String.eqb_spec (User.email d) email) as [E | E]; cbn.
  - destruct (String.eqb_spec (User.email d) other); [congruence | reflexivity].
  - rewrite IH. reflexivity.
Qed.

Ltac step := cbn [users ticks trace fst snd andb app].

Ltac run :=
  unfold checkLoginCredentials, getUserByEmail, passwordMatched,
    generateToken, loginAttempt, loginSuccess, resetAttempt, newDate,
    modifyUsers, emit, deref, bind, ret, throw;
  step.

Ltac found H := rewrite H; step.

(** The two tests of lines 23 and 28, decided by linear arithmetic. *)
Ltac tests :=
  rewrite ?DateFacts.gtb_after, ?DateFacts.ltb_after;
  repeat match goal with
         | |- context [?a >? ?b] => rewrite (Z.gtb_ltb a b)
         end;
  repeat match goal with
         | |- context [?a <? ?b] =>
             first [ replace (a <? b) with true
                       by (symmetry; apply Z.ltb_lt; lia)
                   | replace (a <? b) with false
                       by (symmetry; apply Z.ltb_ge; lia) ]
         | |- context [?a <=? ?b] =>
             first [ replace (a <=? b) with true
                       by (symmetry; apply Z.leb_le; lia)
                   | replace (a <=? b) with false
                       by (symmetry; apply Z.leb_gt; lia) ]
         end;
  step.

Ltac tidy := repeat rewrite <- app_assoc; cbn [app].

Section Collaborators.

Variable clock : Clock.t.
Variable passwordMatchedFn : string -> string -> bool.
Variable generateTokenFn : string -> string -> string.

Local Abbreviation check :=
  (checkLoginCredentials clock passwordMatchedFn generateTokenFn).
Local Abbreviation verdict :=
  (Auth.verdict clock passwordMatchedFn generateTokenFn).
Local Abbreviation passes := (Auth.passes clock).

(** *** The repository operations *)

Lemma resetAttempt_run (w : world) (email : string) :
  resetAttempt email w
  = (Ok tt,
     {| users := updateOne email
                   {| set_updatedOn := None; set_attempt := Some 0 |}
                   (users w);
        ticks := ticks w;
        trace := trace w ++ [ResetAttempt email] |}).
Proof. reflexivity. Qed.

Lemma loginSuccess_run (w : world) (email : string) :
  loginSuccess email w
  = (Ok tt,
     {| users := updateOne email
                   {| set_updatedOn := None; set_attempt := Some 0 |}
                   (users w);
        ticks := ticks w;
        trace := trace w ++ [LoginSuccess email] |}).
Proof. reflexivity. Qed.

Lemma loginAttempt_run (w : world) (email : string) (attempt : Z) :
  loginAttempt clock email attempt w
  = (Ok tt,
     {| users := updateOne email
                   {| set_updatedOn := Some (clock (ticks w));
                      set_attempt := Some attempt |}
                   (users w);
        ticks := S (ticks w);
        trace := trace w ++ [LoginAttempt email attempt] |}).
Proof. reflexivity. Qed.

(** *** The service, case by case *)

(** No document: line 16 reads [updatedOn] of [null]. *)
Lemma check_unknown (w : world) (email password : string) :
  findOne email (users w) = None ->
  check email password w = (Throw TypeError, looked w email).
Proof. intros H. run. found H. reflexivity. Qed.

Lemma check_locked (w : world) (email password : string) (u : User.t)
      (t : Date.t) :
  findOne email (users w) = Some u ->
  User.updatedOn u = Some t ->
  User.attempt u > 5 ->
  clock (ticks w) < t + 10000 ->
  t + 10000 <= Date.maxTime ->
  check email password w
  = (Throw (errorResponder FORBIDDEN lockedMessage),
     {| users := users w; ticks := S (ticks w);
        trace := trace w ++ [GetUserByEmail email] |}).
Proof.
  intros H Ht Ha Hn Hv. run. found H. found Ht. tests.
  reflexivity.
Qed.

Lemma check_expired (w : world) (email password : string) (u : User.t)
      (t : Date.t) :
  findOne email (users w) = Some u ->
  User.updatedOn u = Some t ->
  User.attempt u > 5 ->
  t + 10000 < clock (ticks w) ->
  check email password w = verdict (afterReset w email) email password u.
Proof.
  intros H Ht Ha Hn. run. found H. found Ht.
  pose proof (DateFacts.reading clock (ticks w)) as B. tests.
  unfold Auth.verdict, afterReset. step.
  destruct (passwordMatchedFn password (User.password u)); step;
    [tidy; reflexivity |].
  rewrite findOne_updateOne, H. cbn [option_map]. step. tidy.
  reflexivity.
Qed.

Lemma check_passes (w : world) (email password : string) (u : User.t) :
  findOne email (users w) = Some u ->
  passes w u ->
  check email password w = verdict (evaluated w email u) email password u.
Proof.
  intros H Hp. run. found H. unfold Auth.passes in Hp.
  unfold Auth.verdict, evaluated.
  destruct (User.updatedOn u) as [t |]; step.
  - pose proof (DateFacts.reading clock (ticks w)) as B.
    assert (T : (User.attempt u >? 5)
                && Date.gtb (Date.ofValue (t + 1 * 10 * 1000))
                     (clock (ticks w)) = false
                /\ (User.attempt u >? 5)
                   && Date.ltb (Date.ofValue (t + 1 * 10 * 1000))
                        (clock (ticks w)) = false).
    { rewrite DateFacts.gtb_after, DateFacts.ltb_after.
      destruct Hp as [A | [E | V]].
      - replace (User.attempt u >? 5) with false; [auto |].
        symmetry. rewrite Z.gtb_ltb. apply Z.ltb_ge. lia.
      - replace (clock (ticks w) <? t + 10000) with false
          by (symmetry; apply Z.ltb_ge; lia).
        replace (t + 10000 <? clock (ticks w)) with false
          by (symmetry; apply Z.ltb_ge; lia).
        rewrite !andb_false_r. auto.
      - replace (t + 10000 <=? Date.maxTime) with false
          by (symmetry; apply Z.leb_gt; lia).
        rewrite !andb_false_r. auto. }
    destruct T as [T1 T2]. rewrite T1, T2. step.
    destruct (passwordMatchedFn password (User.password u)); step;
      [tidy; reflexivity |].
    found H. tidy. reflexivity.
  - destruct (passwordMatchedFn password (User.password u)); step;
      [tidy; reflexivity |].
    found H. tidy. reflexivity.
Qed.

Lemma lockout_cases (w : world) (u : User.t) :
  Auth.refused clock w u \/ Auth.expired clock w u \/ passes w u.
Proof.
  unfold Auth.refused, Auth.expired, Auth.passes.
  destruct (User.updatedOn u) as [t |]; [| tauto].
  destruct (Z_le_gt_dec (User.attempt u) 5); [tauto |].
  destruct (Z_le_gt_dec (t + 10000) Date.maxTime); [| right; right; lia].
  destruct (Z.lt_trichotomy (clock (ticks w)) (t + 10000)) as [L | [L | L]];
    [left | right; right | right; left]; auto; lia.
Qed.


(** A user that is refused: line 24 throws. *)
Lemma check_refused (w : world) (email password : string) (u : User.t) :
  findOne email (users w) = Some u ->
  Auth.refused clock w u ->
  check email password w
  = (Throw (errorResponder FORBIDDEN lockedMessage),
     {| users := users w; ticks := S (ticks w);
        trace := trace w ++ [GetUserByEmail email] |}).
Proof.
  intros H R. unfold Auth.refused in R.
  destruct (User.updatedOn u) as [t |] eqn:Ht; [| contradiction].
  destruct R as [Ha [Hn Hv]].
  exact (check_locked w email password u t H Ht Ha Hn Hv).
Qed.

Lemma verdict_success (w1 : world) (email password : string) (u : User.t) :
  passwordMatchedFn password (User.password u) = true ->
  verdict w1 email password u
  = (Ok (Some {| s_email := User.email u; s_name := User.name u;
                 user_id := User.id u;
                 token := generateTokenFn (User.email u) (User.id u) |}),
     {| users := users w1; ticks := ticks w1;
        trace := trace w1
                 ++ [PasswordMatched password (User.password u);
                     GenerateToken (User.email u) (User.id u)] |}).
Proof. intros H. unfold Auth.verdict. rewrite H. reflexivity. Qed.

Lemma verdict_failure (w1 : world) (email password : string)
      (u u2 : User.t) :
  passwordMatchedFn password (User.password u) = false ->
  findOne email (users w1) = Some u2 ->
  verdict w1 email password u
  = (Ok None,
     {| users := updateOne email
                   {| set_updatedOn := Some (clock (ticks w1));
                      set_attempt := Some (User.attempt u2 + 1) |}
                   (users w1);
        ticks := S (ticks w1);
        trace := trace w1
                 ++ [PasswordMatched password (User.password u);
                     GetUserByEmail email;
                     LoginAttempt email (User.attempt u2 + 1)] |}).
Proof. intros H H2. unfold Auth.verdict. rewrite H, H2. reflexivity. Qed.

(** The documents of the other users are not touched. *)
Lemma check_other_users (w : world) (email password other : string) :
  other <> email ->
  findOne other (users (snd (check email password w)))
  = findOne other (users w).
Proof.
  intros N. destruct (findOne email (users w)) as [u |] eqn:H.
  - destruct (lockout_cases w u) as [L | [E | P]].
    + rewrite (check_refused w email password u H L). reflexivity.
    + unfold Auth.expired in E.
      destruct (User.updatedOn u) as [t |] eqn:Ht; [| contradiction].
      destruct E as [Ha Hn].
      rewrite (check_expired w email password u t H Ht Ha Hn).
      unfold Auth.verdict, afterReset. cbn [users].
      rewrite findOne_updateOne, H. cbn [option_map].
      destruct (passwordMatchedFn password (User.password u)); cbn [snd users];
        rewrite ?findOne_updateOne_other by exact N; reflexivity.
    + rewrite (check_passes w email password u H P).
      unfold Auth.verdict, evaluated. cbn [users]. rewrite H.
      destruct (passwordMatchedFn password (User.password u)); cbn [snd users];
        rewrite ?findOne_updateOne_other by exact N; reflexivity.
  - rewrite (check_unknown w email password H). reflexivity.
Qed.

(** *** The claims *)

(** C3, as amended. A user with [attempt > 5] whose lockout window
    (10000 ms from [updatedOn]) ends at a valid date, no later than the
    largest one, and has not elapsed at the reading [now] of the clock:
    [checkLoginCredentials] throws the FORBIDDEN "too many failed login
    attempts" error; the only call made is the lookup of the user, so
    the password matcher is not invoked; the store, and with it the
    user's [attempt] and [updatedOn], is unchanged. *)
Theorem locked_out_rejects_before_password_check
        (w : world) (email password : string) (u : User.t) (t : Date.t) :
  findOne email (users w) = Some u ->
  User.updatedOn u = Some t ->
  User.attempt u > 5 ->
  clock (ticks w) < t + 10000 ->
  t + 10000 <= Date.maxTime ->
  fst (check email password w)
  = Throw (errorResponder FORBIDDEN lockedMessage)
  /\ (exists calls,
         trace (snd (check email password w)) = trace w ++ calls
         /\ calls = [GetUserByEmail email]
         /\ forall x h, ~ In (PasswordMatched x h) calls)
  /\ users (snd (check email password w)) = users w
  /\ findOne email (users (snd (check email password w))) = Some u.
Proof.
  intros H Ht Ha Hn Hv.
  rewrite (check_locked w email password u t H Ht Ha Hn Hv).
  cbn [fst snd users trace].
  split; [reflexivity |]. split; [| auto].
  exists [GetUserByEmail email]. repeat split.
  intros x h [J | []]. discriminate.
Qed.




End Collaborators.

(** *** The claims the code departs from, at concrete inputs *)

Import Samples.

(** C1 (defect of the code). A login with an email that has no document,
    whatever the clock, the matcher and the password: line 16 reads
    [updatedOn] of [null], so the call fails with a [TypeError] right
    after the lookup; the password matcher is never called and [null] is
    not returned. *)
Theorem unknown_email_raises_TypeError :
  forall (clock : Clock.t) (matcherFn : string -> string -> bool)
         (tokensFn : string -> string -> string) (password : string),
    checkLoginCredentials clock matcherFn tokensFn
      "nobody@example.com" password (store (alice 0 None))
    = (Throw TypeError,
       {| users := [alice 0 None]; ticks := 0;
          trace := [GetUserByEmail "nobody@example.com"] |}).
Proof.
  intros clock matcherFn tokensFn password.
  apply (check_unknown clock matcherFn tokensFn
           (store (alice 0 None)) "nobody@example.com" password).
  reflexivity.
Qed.

(** C2 (defect of the code). A user with three failed attempts logs in
    with the right password: the session is returned, [loginSuccess] is
    never called and the counter is still 3 afterwards. *)
Theorem successful_login_leaves_attempt_counter :
  forall (clock : Clock.t),
    checkLoginCredentials clock matcher tokens
      "alice@example.com" "secret" (store (alice 3 None))
    = (Ok (Some {| s_email := "alice@example.com"; s_name := "Alice";
                   user_id := "1"; token := "token-1" |}),
       {| users := [alice 3 None]; ticks := 0;
          trace := [GetUserByEmail "alice@example.com";
                    PasswordMatched "secret" "hash-of-secret";
                    GenerateToken "alice@example.com" "1"] |}).
Proof. intros clock. reflexivity. Qed.

(** C4 (defect of the code). [attempt = 6], [updatedOn = 0] and the
    clock reads exactly [updatedOn + 10000]: neither line 23 nor line 28
    holds, so [resetAttempt] is not called, and the failed password
    check that follows takes the counter from 6 to 7 instead of starting
    again from 0. *)
Theorem lock_expiring_at_this_instant_is_not_reset :
  checkLoginCredentials (at_ 10000) matcher tokens
    "alice@example.com" "guess" (store (alice 6 (Some 0)))
  = (Ok None,
     {| users := [alice 7 (Some 10000)]; ticks := 2;
        trace := [GetUserByEmail "alice@example.com";
                  PasswordMatched "guess" "hash-of-secret";
                  GetUserByEmail "alice@example.com";
                  LoginAttempt "alice@example.com" 7] |}).
Proof. reflexivity. Qed.

(** C3 as the specification states it fails. [attempt = 6] and
    [updatedOn] the largest date: the clock reads 5000, long before
    [updatedOn + 10000], but that sum is no valid date, [after30Minutes]
    is an Invalid Date and both tests of lines 23 and 28 are false: the
    password is checked and the session is returned. *)
Lemma lockout_is_skipped_at_the_largest_date :
  User.attempt (alice 6 (Some 8640000000000000)) > 5
  /\ User.updatedOn (alice 6 (Some 8640000000000000))
     = Some (Date.fromTime 8640000000000000)
  /\ at_ 5000 0%nat < Date.fromTime 8640000000000000 + 10000
  /\ checkLoginCredentials (at_ 5000) matcher tokens
       "alice@example.com" "secret"
       (store (alice 6 (Some 8640000000000000)))
     = (Ok (Some {| s_email := "alice@example.com"; s_name := "Alice";
                    user_id := "1"; token := "token-1" |}),
        {| users := [alice 6 (Some 8640000000000000)]; ticks := 1;
           trace := [GetUserByEmail "alice@example.com";
                     PasswordMatched "secret" "hash-of-secret";
                     GenerateToken "alice@example.com" "1"] |}).
Proof. repeat split. Qed.


(** *** Witnesses *)

Lemma locked_out_rejects_before_password_check_witness :
  fst (checkLoginCredentials (at_ 5000) matcher tokens
         "alice@example.com" "secret" (store (alice 6 (Some 0))))
  = Throw (errorResponder FORBIDDEN lockedMessage)
  /\ users (snd (checkLoginCredentials (at_ 5000) matcher tokens
                   "alice@example.com" "secret" (store (alice 6 (Some 0)))))
     = [alice 6 (Some 0)].
Proof.
  destruct (locked_out_rejects_before_password_check
              (at_ 5000) matcher tokens (store (alice 6 (Some 0)))
              "alice@example.com" "secret" (alice 6 (Some 0))
              (Date.fromTime 0))
    as [R [_ [U _]]]; [reflexivity | reflexivity | reflexivity
                      | reflexivity | cbv; discriminate |].
  split; [exact R | exact U].
Defined.




End AuthFacts.

(** * Properties of the users listing *)

Module UsersFacts.

Import Users.

(** ** The sort *)

Section Sorting.

Variable A : Type.
Variable compare : A -> A -> option Z.

Let before (a b : A) : Prop := exists c, compare a b = Some c /\ c <= 0.

Lemma insert_perm (x : A) (l l' : list A) :
  insert compare x l = Some l' -> Permutation (x :: l) l'.
Proof.
  revert l'. induction l as [| y rest IH]; cbn; intros l'.
  - intros [= <-]. apply Permutation_refl.
  - destruct (compare x y) as [c |]; [| discriminate].
    destruct (c >? 0).
    + destruct (insert compare x rest) as [rest' |]; [| discriminate].
      intros [= <-].
      apply perm_trans with (y :: x :: rest); [apply perm_swap |].
      apply perm_skip. apply IH. reflexivity.
    + intros [= <-]. apply Permutation_refl.
Qed.

Lemma sort_perm (l l' : list A) :
  sort compare l = Some l' -> Permutation l l'.
Proof.
  revert l'. induction l as [| x rest IH]; cbn; intros l'.
  - intros [= <-]. apply perm_nil.
  - destruct (sort compare rest) as [sorted |]; [| discriminate].
    intros H. apply insert_perm in H.
    apply perm_trans with (x :: sorted); [| exact H].
    apply perm_skip. apply IH. reflexivity.
Qed.

Lemma sort_length (l l' : list A) :
  sort compare l = Some l' -> length l' = length l.
Proof.
  intros H. symmetry. apply Permutation_length, sort_perm, H.
Qed.

Section Total.

Hypothesis compare_total : forall a b, exists c, compare a b = Some c.

Lemma insert_total (x : A) (l : list A) :
  exists l', insert compare x l = Some l'.
Proof.
  induction l as [| y rest [rest' IH]]; cbn; [eauto |].
  destruct (compare_total x y) as [c ->].
  rewrite IH. destruct (c >? 0); eauto.
Qed.

Lemma sort_total (l : list A) : exists l', sort compare l = Some l'.
Proof.
  induction l as [| x rest [sorted IH]]; cbn; [eauto |].
  rewrite IH. apply insert_total.
Qed.

End Total.

Section Consistent.

(** When the comparator asks for [b] before [a], it does not ask for
    [a] before [b]. *)
Hypothesis compare_asym :
  forall a b c, compare a b = Some c -> c > 0 -> before b a.

Lemma insert_HdRel (x y : A) (l l' : list A) :
  insert compare x l = Some l' ->
  before y x -> HdRel before y l -> HdRel before y l'.
Proof.
  destruct l as [| z rest]; cbn.
  - intros [= <-] Hx _. constructor. exact Hx.
  - destruct (compare x z) as [c |]; [| discriminate].
    destruct (c >? 0).
    + destruct (insert compare x rest); [| discriminate].
      intros [= <-] _ Hz. inversion Hz; subst. constructor. assumption.
    + intros [= <-] Hx _. constructor. exact Hx.
Qed.

Lemma insert_sorted (x : A) (l l' : list A) :
  Sorted before l -> insert compare x l = Some l' -> Sorted before l'.
Proof.
  revert l'. induction l as [| y rest IH]; cbn; intros l' Hs.
  - intros [= <-]. repeat constructor.
  - destruct (compare x y) as [c |] eqn:E; [| discriminate].
    destruct (c >? 0) eqn:G.
    + destruct (insert compare x rest) as [rest' |] eqn:I;
        [| discriminate].
      intros [= <-]. inversion Hs; subst.
      constructor; [apply IH; auto |].
      apply insert_HdRel with (x := x) (l := rest); auto.
      apply (compare_asym x y c E). apply Z.gtb_lt in G. lia.
    + intros [= <-]. constructor; [exact Hs |].
      constructor. exists c. split; [exact E |].
      rewrite Z.gtb_ltb in G. apply Z.ltb_ge in G. exact G.
Qed.

Lemma sort_sorted (l l' : list A) :
  sort compare l = Some l' -> Sorted before l'.
Proof.
  revert l'. induction l as [| x rest IH]; cbn; intros l'.
  - intros [= <-]. constructor.
  - destruct (sort compare rest) as [sorted |]; [| discriminate].
    apply insert_sorted. apply IH. reflexivity.
Qed.

End Consistent.

End Sorting.

(** ** The whitelists *)

Lemma isValidSortField_cases (field : option string) :
  isValidSortField field = "email" \/ isValidSortField field = "name".
Proof.
  destruct field as [f |]; cbn; [| auto].
  destruct (String.eqb_spec f "email"); [subst; auto |].
  destruct (String.eqb_spec f "name"); subst; auto.
Qed.




Lemma sortFieldOf_cases (request : Query.t) :
  sortFieldOf request = "email" \/ sortFieldOf request = "name".
Proof.
  unfold sortFieldOf.
  destruct (truthy (Query.sort request)); [apply isValidSortField_cases | auto].
Qed.



(** ** The page *)

Lemma slice_nothing {A} (a : list A) : slice a (Int 0) (Int 0) = [].
Proof.
  unfold slice, relativeIndex. cbn [Z.ltb Z.compare].
  rewrite Z.sub_diag. reflexivity.
Qed.

Section Listing.

Variable localeCompare : string -> string -> Z.
Variable usersService_getUsers :
  option number -> option number -> option string -> option string ->
  string -> string -> error + list User.t.

Local Abbreviation getUsers :=
  (Users.getUsers localeCompare usersService_getUsers).
Local Abbreviation compareUsers := (Users.compareUsers localeCompare).

Lemma compareUsers_total (sortOrder sortField : string) :
  sortField = "email" \/ sortField = "name" ->
  forall a b, exists c, compareUsers sortOrder sortField a b = Some c.
Proof.
  intros [-> | ->] a b; unfold Users.compareUsers; cbn;
    destruct (String.eqb sortOrder "asc"); eauto.
Qed.

(** The comparator [getUsers] sorts with never throws. *)
Lemma sortedUsers_exist (request : Query.t) (filteredUsers : list User.t) :
  exists sortedUsers,
    sort (compareUsers (sortOrderOf request) (sortFieldOf request))
      filteredUsers = Some sortedUsers.
Proof.
  apply sort_total, compareUsers_total, sortFieldOf_cases.
Qed.

(** With a [localeCompare] that does not put two strings each before the
    other, the sorted array is in order. *)
Lemma sortedUsers_sorted (sortOrder sortField : string)
      (filteredUsers sortedUsers : list User.t) :
  (forall x y, localeCompare x y > 0 -> localeCompare y x <= 0) ->
  sort (compareUsers sortOrder sortField) filteredUsers = Some sortedUsers ->
  Sorted (ordered localeCompare sortOrder sortField) sortedUsers.
Proof.
  intros Asym H.
  apply (sort_sorted _ (compareUsers sortOrder sortField)) with (l := filteredUsers);
    [| exact H].
  intros a b c E G. unfold Users.compareUsers in *.
  destruct (String.eqb sortOrder "asc");
    destruct (prop a sortField) as [x |], (prop b sortField) as [y |];
    try discriminate; injection E as <-; eexists; split;
    try reflexivity; apply Asym; exact G.
Qed.

(** The response of [getUsers] when the service and the sort succeed. *)
Lemma getUsers_run (request : Query.t) (filteredUsers : list User.t) :
  usersService_getUsers
    (orNull (parseInt (Query.page_number request)))
    (orNull (parseInt (Query.page_size request)))
    (searchFieldOf request) (searchKeyOf request)
    (sortFieldOf request) (sortOrderOf request) = inr filteredUsers ->
  exists sortedUsers,
    sort (compareUsers (sortOrderOf request) (sortFieldOf request))
      filteredUsers = Some sortedUsers
    /\ Permutation filteredUsers sortedUsers
    /\ getUsers request
       = let pageNumber := orNull (parseInt (Query.page_number request)) in
         let pageSize := orNull (parseInt (Query.page_size request)) in
         let startIndex :=
           mul (sub (toNumber pageNumber) (Int 1)) (toNumber pageSize) in
         let endIndex := add startIndex (toNumber pageSize) in
         let totalUsers := Int (Z.of_nat (length filteredUsers)) in
         Json 200
           {| page_number := pageNumber;
              page_size := pageSize;
              count := totalUsers;
              total_pages := ceilDiv totalUsers (toNumber pageSize);
              has_previous_page := gt (toNumber pageNumber) (Int 1);
              has_next_page := lt endIndex totalUsers;
              users := slice sortedUsers startIndex endIndex |}.
Proof.
  intros Hs. destruct (sortedUsers_exist request filteredUsers) as [sorted E].
  exists sorted. split; [exact E |]. split; [apply (sort_perm _ _ _ _ E) |].
  unfold Users.getUsers. rewrite Hs, E.
  rewrite (sort_length _ _ _ _ E). reflexivity.
Qed.

(** In ascending order the comparator of the sort is [localeCompare] on
    the sort field. *)
Lemma ordered_ascending (sortField : string) (a b : User.t) :
  ordered localeCompare "asc" sortField a b ->
  Paging.ascendingBy localeCompare sortField a b.
Proof.
  intros [c [E L]]. unfold Users.compareUsers in E. cbn [String.eqb] in E.
  split; intros ->; cbn in E; injection E as <-; exact L.
Qed.

(** C7. [page_number=2], [page_size=2], an ascending sort and five
    matching users, with a [localeCompare] that never puts two strings
    each before the other: the sorted array is a rearrangement of the
    five in ascending order of the sort field (the email or the name),
    and the response is 200 with the users at its indices 2 and 3,
    [count = 5], [total_pages = 3], [has_previous_page] and
    [has_next_page] true. *)
Theorem second_page_of_five_users
        (request : Query.t) (filteredUsers : list User.t) :
  (forall x y, localeCompare x y > 0 -> localeCompare y x <= 0) ->
  Query.page_number request = Some "2" ->
  Query.page_size request = Some "2" ->
  sortOrderOf request = "asc" ->
  usersService_getUsers (Some (Int 2)) (Some (Int 2))
    (searchFieldOf request) (searchKeyOf request)
    (sortFieldOf request) (sortOrderOf request) = inr filteredUsers ->
  length filteredUsers = 5%nat ->
  exists sortedUsers a b,
    sort (compareUsers (sortOrderOf request) (sortFieldOf request))
      filteredUsers = Some sortedUsers
    /\ Permutation filteredUsers sortedUsers
    /\ (sortFieldOf request = "email" \/ sortFieldOf request = "name")
    /\ Sorted (Paging.ascendingBy localeCompare (sortFieldOf request))
         sortedUsers
    /\ nth_error sortedUsers 2 = Some a
    /\ nth_error sortedUsers 3 = Some b
    /\ getUsers request
       = Json 200
           {| page_number := Some (Int 2);
              page_size := Some (Int 2);
              count := Int 5;
              total_pages := Int 3;
              has_previous_page := true;
              has_next_page := true;
              users := [a; b] |}.
Proof.
  intros Asym Hn Hz Ho Hs Hl.
  assert (P : orNull (parseInt (Some "2")) = Some (Int 2)) by reflexivity.
  destruct (getUsers_run request filteredUsers) as [sorted [E [Pm R]]].
  { rewrite Hn, Hz, P. exact Hs. }
  rewrite Hn, Hz, P, Hl in R.
  pose proof (sortedUsers_sorted _ _ _ _ Asym E) as So.
  rewrite Ho in So.
  assert (Sa : Sorted (Paging.ascendingBy localeCompare (sortFieldOf request))
                      sorted).
  { clear - So. induction So as [| x l S IH Hd]; constructor; [exact IH |].
    destruct Hd; constructor. apply ordered_ascending. assumption. }
  pose proof (Permutation_length Pm) as L. rewrite Hl in L.
  destruct sorted as [| u0 [| u1 [| u2 [| u3 [| u4 [| u5 rest]]]]]];
    try discriminate L.
  exists [u0; u1; u2; u3; u4], u2, u3.
  repeat split; auto; try apply Sa.
  apply sortFieldOf_cases.
Qed.

(** Without [page_number] and [page_size] both are [null], the slice is
    [slice(0, 0)] and the page is empty whatever the service found. *)
Lemma getUsers_without_page (request : Query.t) (filteredUsers : list User.t) :
  Query.page_number request = None ->
  Query.page_size request = None ->
  usersService_getUsers None None
    (searchFieldOf request) (searchKeyOf request)
    (sortFieldOf request) (sortOrderOf request) = inr filteredUsers ->
  getUsers request
  = Json 200
      {| page_number := None;
         page_size := None;
         count := Int (Z.of_nat (length filteredUsers));
         total_pages :=
           ceilDiv (Int (Z.of_nat (length filteredUsers))) (Int 0);
         has_previous_page := false;
         has_next_page := 0 <? Z.of_nat (length filteredUsers);
         users := [] |}.
Proof.
  intros Hn Hz Hs.
  assert (P : orNull (parseInt None) = None) by reflexivity.
  destruct (getUsers_run request filteredUsers) as [sorted [E [Pm R]]].
  { rewrite Hn, Hz, P. exact Hs. }
  rewrite Hn, Hz, P in R. rewrite R. cbn zeta.
  change (mul (sub (toNumber None) (Int 1)) (toNumber None)) with (Int 0).
  change (add (Int 0) (toNumber None)) with (Int 0).
  rewrite slice_nothing. reflexivity.
Qed.

End Listing.

Import Samples.

(** C8 (defect of the code). A request without [page_number] and
    [page_size], the service finding five users: the response has
    [count = 5] and an empty [users] array, not the five users. *)
Theorem absent_page_parameters_give_an_empty_page :
  Users.getUsers byCodeUnits (finds five) (request None None None None)
  = Json 200
      {| page_number := None;
         page_size := None;
         count := Int 5;
         total_pages := PosInfinity;
         has_previous_page := false;
         has_next_page := true;
         users := [] |}.
Proof. reflexivity. Qed.

(** *** Witnesses *)


Lemma byCodeUnits_asym (x y : string) :
  byCodeUnits x y > 0 -> byCodeUnits y x <= 0.
Proof.
  unfold byCodeUnits. rewrite (String.compare_antisym y x).
  destruct (String.compare x y); cbn; lia.
Qed.

Lemma second_page_of_five_users_witness :
  exists sortedUsers,
    Permutation five sortedUsers
    /\ Sorted (Paging.ascendingBy byCodeUnits "name") sortedUsers
    /\ nth_error sortedUsers 2 = Some (member "5" "carol")
    /\ nth_error sortedUsers 3 = Some (member "3" "dave")
    /\ Users.getUsers byCodeUnits (finds five)
         (request (Some "2") (Some "2") None (Some "name:asc"))
       = Json 200
           {| page_number := Some (Int 2);
              page_size := Some (Int 2);
              count := Int 5;
              total_pages := Int 3;
              has_previous_page := true;
              has_next_page := true;
              users := [member "5" "carol"; member "3" "dave"] |}.
Proof.
  destruct (second_page_of_five_users byCodeUnits (finds five)
              (request (Some "2") (Some "2") None (Some "name:asc")) five
              byCodeUnits_asym eq_refl eq_refl eq_refl eq_refl eq_refl)
    as [sorted [a [b [E [P [_ [S [A [B G]]]]]]]]].
  exists sorted. split; [exact P |]. split; [exact S |].
  assert (Sd : sorted = [member "4" "alice"; member "2" "bob";
                         member "5" "carol"; member "3" "dave";
                         member "1" "erin"]).
  { vm_compute in E. injection E as <-. reflexivity. }
  subst sorted. repeat split.
Defined.


End UsersFacts.

(** * Further properties of the login throttling *)

Module AuthMore.

Import Auth Sessions AuthFacts.

(** ** The store *)

Lemma findOne_email (email : string) (docs : list User.t) (u : User.t) :
  findOne email docs = Some u -> User.email u = email.
Proof.
  induction docs as [| d docs IH]; cbn; [discriminate |].
  destruct (String.eqb_spec (User.email d) email) as [E | E]; auto.
  intros [= <-]. exact E.
Qed.

Lemma findOne_In (email : string) (docs : list User.t) (u : User.t) :
  findOne email docs = Some u -> In u docs.
Proof.
  induction docs as [| d docs IH]; cbn; [discriminate |].
  destruct (String.eqb (User.email d) email); auto.
  intros [= <-]. left. reflexivity.
Qed.

Lemma updateOne_missing (email : string) (s : setDoc) (docs : list User.t) :
  findOne email docs = None -> updateOne email s docs = docs.
Proof.
  induction docs as [| d docs IH]; cbn; [reflexivity |].
  destruct (String.eqb (User.email d) email); [discriminate |].
  intros H. rewrite IH by exact H. reflexivity.
Qed.

Lemma identity_updateOne (email : string) (s : setDoc) (docs : list User.t) :
  map identity (updateOne email s docs) = map identity docs.
Proof.
  induction docs as [| d docs IH]; cbn; [reflexivity |].
  destruct (String.eqb (User.email d) email); cbn; [reflexivity |].
  rewrite IH. reflexivity.
Qed.

Lemma others_updateOne (email : string) (s : setDoc) (docs : list User.t) :
  others email (updateOne email s docs) = others email docs.
Proof.
  unfold others. induction docs as [| d docs IH]; cbn; [reflexivity |].
  destruct (String.eqb (User.email d) email) eqn:E; cbn; rewrite E; cbn.
  - reflexivity.
  - rewrite IH. reflexivity.
Qed.

Lemma Forall_updateOne (P : User.t -> Prop) (email : string) (s : setDoc)
      (docs : list User.t) :
  Forall P docs ->
  (forall u, findOne email docs = Some u -> P (applySet s u)) ->
  Forall P (updateOne email s docs).
Proof.
  induction docs as [| d docs IH]; cbn; intros F H; [constructor |].
  inversion F; subst.
  destruct (String.eqb (User.email d) email).
  - constructor; [apply H; reflexivity | assumption].
  - constructor; [assumption | apply IH; assumption].
Qed.

Section Collaborators.

Variable clock : Clock.t.
Variable passwordMatchedFn : string -> string -> bool.
Variable generateTokenFn : string -> string -> string.

Local Abbreviation check :=
  (checkLoginCredentials clock passwordMatchedFn generateTokenFn).
Local Abbreviation verdict :=
  (Auth.verdict clock passwordMatchedFn generateTokenFn).
Local Abbreviation logins :=
  (Sessions.logins clock passwordMatchedFn generateTokenFn).

(** The session [checkLoginCredentials] builds for [u]. *)
Local Abbreviation sessionOf u :=
  {| s_email := User.email u; s_name := User.name u; user_id := User.id u;
     token := generateTokenFn (User.email u) (User.id u) |}.

(** How a login goes for a user that is found, in one statement. *)
Lemma check_found (w : world) (email password : string) (u : User.t) :
  findOne email (users w) = Some u ->
  (Auth.refused clock w u
   /\ check email password w
      = (Throw (errorResponder FORBIDDEN lockedMessage),
         {| users := users w; ticks := S (ticks w);
            trace := trace w ++ [GetUserByEmail email] |}))
  \/ (Auth.expired clock w u
      /\ check email password w
         = verdict (afterReset w email) email password u)
  \/ (Auth.passes clock w u
      /\ check email password w
         = verdict (evaluated w email u) email password u).
Proof.
  intros H. destruct (lockout_cases clock w u) as [L | [E | P]].
  - left. split; [exact L |].
    exact (check_refused clock passwordMatchedFn generateTokenFn
             w email password u H L).
  - right; left. split; [exact E |]. unfold Auth.expired in E.
    destruct (User.updatedOn u) as [t |] eqn:Ht; [| contradiction].
    destruct E as [Ha Hn]. eapply check_expired; eauto.
  - right; right. split; [exact P |]. apply check_passes; assumption.
Qed.

Lemma not_refused_when_expired (w : world) (u : User.t) :
  Auth.expired clock w u -> ~ Auth.refused clock w u.
Proof.
  unfold Auth.expired, Auth.refused.
  destruct (User.updatedOn u); [lia | tauto].
Qed.

Lemma not_refused_when_passes (w : world) (u : User.t) :
  Auth.passes clock w u -> ~ Auth.refused clock w u.
Proof.
  unfold Auth.passes, Auth.refused.
  destruct (User.updatedOn u); [lia | tauto].
Qed.

Lemma findOne_afterReset (w : world) (email : string) (u : User.t) :
  findOne email (users w) = Some u ->
  findOne email (users (afterReset w email))
  = Some (applySet {| set_updatedOn := None; set_attempt := Some 0 |} u).
Proof.
  intros H. unfold afterReset. cbn [users].
  rewrite findOne_updateOne, H. reflexivity.
Qed.

(** X1. A session is returned only for a user that is found, is not
    refused by the lockout (locked, with a window that ends at a valid
    date) and whose stored hash the matcher accepts for the password
    given; the session carries the name and id of that user, the email
    asked for and the token generated for them. *)
Theorem session_only_for_accepted_password
        (w : world) (email password : string) (s : session) :
  fst (check email password w) = Ok (Some s) ->
  exists u,
    findOne email (users w) = Some u
    /\ ~ Auth.refused clock w u
    /\ passwordMatchedFn password (User.password u) = true
    /\ s = {| s_email := email; s_name := User.name u; user_id := User.id u;
              token := generateTokenFn email (User.id u) |}.
Proof.
  intros R. destruct (findOne email (users w)) as [u |] eqn:H.
  - exists u. pose proof (findOne_email _ _ _ H) as Em.
    destruct (check_found w email password u H)
      as [[L E] | [[X E] | [P E]]]; rewrite E in R.
    + discriminate R.
    + unfold Auth.verdict in R. rewrite (findOne_afterReset _ _ _ H) in R.
      destruct (passwordMatchedFn password (User.password u)) eqn:Hp;
        [| discriminate R].
      cbn [fst] in R. injection R as <-. rewrite Em.
      repeat split; auto. apply not_refused_when_expired, X.
    + unfold Auth.verdict in R.
      change (users (evaluated w email u)) with (users w) in R.
      rewrite H in R.
      destruct (passwordMatchedFn password (User.password u)) eqn:Hp;
        [| discriminate R].
      cbn [fst] in R. injection R as <-. rewrite Em.
      repeat split; auto. apply not_refused_when_passes, P.
  - rewrite (check_unknown clock passwordMatchedFn generateTokenFn
               w email password H) in R.
    discriminate R.
Qed.

(** The store after a login: that of before, with the document of [email]
    updated by the writes of the login. *)
Lemma check_users (w : world) (email password : string) :
  exists writes : list setDoc,
    users (snd (check email password w))
    = fold_right (updateOne email) (users w) writes.
Proof.
  destruct (findOne email (users w)) as [u |] eqn:H.
  - destruct (check_found w email password u H)
      as [[L E] | [[X E] | [P E]]]; rewrite E.
    + exists []. reflexivity.
    + unfold Auth.verdict. rewrite (findOne_afterReset _ _ _ H).
      destruct (passwordMatchedFn password (User.password u)).
      * exists [{| set_updatedOn := None; set_attempt := Some 0 |}].
        reflexivity.
      * eexists [_; _]. reflexivity.
    + unfold Auth.verdict.
      change (users (evaluated w email u)) with (users w). rewrite H.
      destruct (passwordMatchedFn password (User.password u)).
      * exists []. reflexivity.
      * eexists [_]. reflexivity.
  - rewrite (check_unknown clock passwordMatchedFn generateTokenFn
               w email password H).
    exists []. reflexivity.
Qed.

(** X3. A login never adds or removes a document, never changes the id,
    email, name or password hash of any user, and leaves the documents of
    the users with another email exactly as they were. *)
Theorem login_writes_only_the_counter_of_its_user
        (w : world) (email password : string) :
  map identity (users (snd (check email password w)))
  = map identity (users w)
  /\ length (users (snd (check email password w))) = length (users w)
  /\ others email (users (snd (check email password w)))
     = others email (users w).
Proof.
  destruct (check_users w email password) as [writes ->].
  assert (I : map identity (fold_right (updateOne email) (users w) writes)
              = map identity (users w)).
  { induction writes as [| s writes IH]; cbn; [reflexivity |].
    rewrite identity_updateOne. exact IH. }
  split; [exact I |]. split.
  - rewrite <- (length_map identity), I. apply length_map.
  - clear I. induction writes as [| s writes IH]; cbn [fold_right];
      [reflexivity |].
    rewrite others_updateOne. exact IH.
Qed.

(** X4. When no stored counter is negative, none is after a login. *)
Theorem login_keeps_counters_non_negative
        (w : world) (email password : string) :
  Forall (fun u => 0 <= User.attempt u) (users w) ->
  Forall (fun u => 0 <= User.attempt u)
         (users (snd (check email password w))).
Proof.
  intros F.
  set (P := fun u : User.t => 0 <= User.attempt u) in *.
  assert (R : Forall P (updateOne email
                          {| set_updatedOn := None; set_attempt := Some 0 |}
                          (users w))).
  { apply Forall_updateOne; [exact F |]. intros u _. unfold P. cbn. lia. }
  assert (A : forall docs t,
             Forall P docs ->
             forall u2, findOne email docs = Some u2 ->
             Forall P (updateOne email
                         {| set_updatedOn := Some t;
                            set_attempt := Some (User.attempt u2 + 1) |}
                         docs)).
  { intros docs t Fd u2 H2. apply Forall_updateOne; [exact Fd |].
    intros u _. unfold P. cbn.
    pose proof (proj1 (Forall_forall P docs) Fd u2 (findOne_In _ _ _ H2)) as N.
    unfold P in N. lia. }
  destruct (findOne email (users w)) as [u |] eqn:H.
  - destruct (check_found w email password u H)
      as [[L E] | [[X E] | [Q E]]]; rewrite E.
    + exact F.
    + unfold Auth.verdict.
      pose proof (findOne_afterReset _ _ _ H) as H2. rewrite H2.
      destruct (passwordMatchedFn password (User.password u)); cbn [snd users].
      * exact R.
      * apply A with (u2 := applySet {| set_updatedOn := None;
                                        set_attempt := Some 0 |} u);
          [exact R | exact H2].
    + unfold Auth.verdict.
      change (users (evaluated w email u)) with (users w). rewrite H.
      destruct (passwordMatchedFn password (User.password u)); cbn [snd users].
      * exact F.
      * apply A with (u2 := u); assumption.
  - rewrite (check_unknown clock passwordMatchedFn generateTokenFn
               w email password H).
    exact F.
Qed.

(** X5. A user whose counter is at most 5 is never refused: whatever
    [updatedOn] and the clock say, the call after the lookup is the
    password check against the stored hash, and the answer is the session
    when the matcher accepts and [null] when it does not. *)
Theorem at_most_five_failures_reach_the_password_check
        (w : world) (email password : string) (u : User.t) :
  findOne email (users w) = Some u ->
  User.attempt u <= 5 ->
  fst (check email password w)
  = (if passwordMatchedFn password (User.password u)
     then Ok (Some (sessionOf u))
     else Ok None)
  /\ exists rest,
      trace (snd (check email password w))
      = trace w
        ++ GetUserByEmail email
           :: PasswordMatched password (User.password u) :: rest.
Proof.
  intros H A.
  assert (P : Auth.passes clock w u).
  { unfold Auth.passes. destruct (User.updatedOn u); auto. }
  rewrite (check_passes clock passwordMatchedFn generateTokenFn
             w email password u H P).
  unfold Auth.verdict.
  change (users (evaluated w email u)) with (users w). rewrite H.
  destruct (passwordMatchedFn password (User.password u));
    cbn [fst snd trace evaluated]; (split; [reflexivity |]);
    eexists; rewrite <- app_assoc; reflexivity.
Qed.

(** X6. Once the lockout window of a locked user has elapsed, the right
    password logs in: the session is returned and the stored counter is 0,
    [updatedOn] being left at the time of the last failure. *)
Theorem expired_lock_and_right_password_reset_the_counter
        (w : world) (email password : string) (u : User.t) (t : Date.t) :
  findOne email (users w) = Some u ->
  User.updatedOn u = Some t ->
  User.attempt u > 5 ->
  t + 10000 < clock (ticks w) ->
  passwordMatchedFn password (User.password u) = true ->
  fst (check email password w) = Ok (Some (sessionOf u))
  /\ exists u',
      findOne email (users (snd (check email password w))) = Some u'
      /\ User.attempt u' = 0
      /\ User.updatedOn u' = Some t.
Proof.
  intros H Ht Ha Hn Hp.
  rewrite (check_expired clock passwordMatchedFn generateTokenFn
             w email password u t H Ht Ha Hn).
  rewrite (verdict_success clock passwordMatchedFn generateTokenFn _ _ _ _ Hp).
  cbn [fst snd users]. split; [reflexivity |].
  rewrite (findOne_afterReset _ _ _ H). eexists. split; [reflexivity |].
  cbn. auto.
Qed.

(** X7. Logins refused during the lockout window do not prolong it: for
    a locked user whose window ends at a valid date, after any number of
    logins, all within the window, the store is exactly what it was, so
    the window still ends 10000 ms after the last counted failure; each
    of them only looked the user up and read the clock. *)
Theorem refused_logins_leave_the_store
        (n : nat) (w : world) (email password : string) (u : User.t)
        (t : Date.t) :
  findOne email (users w) = Some u ->
  User.updatedOn u = Some t ->
  User.attempt u > 5 ->
  t + 10000 <= Date.maxTime ->
  (forall k, (k < n)%nat -> clock (ticks w + k)%nat < t + 10000) ->
  users (logins n email password w) = users w
  /\ ticks (logins n email password w) = (ticks w + n)%nat
  /\ trace (logins n email password w)
     = trace w ++ repeat (GetUserByEmail email) n.
Proof.
  revert w. induction n as [| n IH]; intros w H Ht Ha Hv Hk;
    cbn [Sessions.logins].
  - rewrite Nat.add_0_r, app_nil_r. auto.
  - assert (L : clock (ticks w) < t + 10000).
    { rewrite <- (Nat.add_0_r (ticks w)). apply Hk. lia. }
    rewrite (check_locked clock passwordMatchedFn generateTokenFn
               w email password u t H Ht Ha L Hv).
    cbn [snd].
    destruct (IH {| users := users w; ticks := S (ticks w);
                    trace := trace w ++ [GetUserByEmail email] |})
      as [U [T C]]; auto.
    { cbn [ticks]. intros k Lk.
      replace (S (ticks w) + k)%nat with (ticks w + S k)%nat by lia.
      apply Hk. lia. }
    cbn [users ticks trace] in U, T, C.
    rewrite U, T, C. repeat split; [lia |].
    rewrite <- app_assoc. reflexivity.
Qed.

(** Wrong passwords while the counter stays within the threshold: each
    login adds 1. *)
Lemma failed_logins_count
      (n : nat) (w : world) (email password : string) (u : User.t) :
  findOne email (users w) = Some u ->
  passwordMatchedFn password (User.password u) = false ->
  User.attempt u + Z.of_nat n <= 6 ->
  exists u',
    findOne email (users (logins n email password w)) = Some u'
    /\ User.attempt u' = User.attempt u + Z.of_nat n
    /\ User.password u' = User.password u
    /\ ((1 <= n)%nat ->
        User.updatedOn u'
        = Some (clock (Nat.pred (ticks (logins n email password w))))).
Proof.
  revert w u. induction n as [| n IH]; intros w u H Hp Hn;
    cbn [Sessions.logins].
  - exists u. repeat split; [exact H | lia | lia].
  - assert (P : Auth.passes clock w u).
    { unfold Auth.passes. destruct (User.updatedOn u); [left; lia | exact I]. }
    rewrite (check_passes clock passwordMatchedFn generateTokenFn
               w email password u H P).
    assert (F : findOne email (users (evaluated w email u)) = Some u)
      by exact H.
    rewrite (verdict_failure clock passwordMatchedFn generateTokenFn
               _ _ _ _ _ Hp F).
    cbn [snd].
    set (w1 := {| users := _; ticks := S (ticks (evaluated w email u));
                  trace := _ |}).
    assert (F1 : findOne email (users w1)
                 = Some (applySet
                           {| set_updatedOn :=
                                Some (clock (ticks (evaluated w email u)));
                              set_attempt := Some (User.attempt u + 1) |} u)).
    { unfold w1. cbn [users]. rewrite findOne_updateOne, F. reflexivity. }
    destruct (IH w1 _ F1) as [u' [G [A [Q T]]]]; [exact Hp | cbn; lia |].
    exists u'. cbn in A, Q. repeat split; [exact G | lia | exact Q |].
    intros _. destruct n as [| n].
    + cbn [Sessions.logins] in G |- *. rewrite F1 in G. injection G as <-.
      reflexivity.
    + apply T. lia.
Qed.

(** X8. Wrong passwords lock the account: when [n >= 1] failed logins in
    a row bring the counter of a user to 6, the next login is refused with
    the lockout error as long as the clock reads less than 10000 ms after
    the last of them, whatever password it brings (the right one too), and
    it leaves the store alone. *)
Theorem failed_logins_lock_the_account
        (n : nat) (w : world) (email password next : string) (u : User.t) :
  findOne email (users w) = Some u ->
  passwordMatchedFn password (User.password u) = false ->
  (1 <= n)%nat ->
  User.attempt u + Z.of_nat n = 6 ->
  clock (ticks (logins n email password w))
  < clock (Nat.pred (ticks (logins n email password w))) + 10000 ->
  fst (check email next (logins n email password w))
  = Throw (errorResponder FORBIDDEN lockedMessage)
  /\ users (snd (check email next (logins n email password w)))
     = users (logins n email password w).
Proof.
  intros H Hp N A L.
  destruct (failed_logins_count n w email password u H Hp) as [u' [G [C [_ T]]]];
    [lia |].
  specialize (T N).
  rewrite (check_locked clock passwordMatchedFn generateTokenFn
             _ email next u' _ G T);
    [auto | lia | exact L | apply Clock.early].
Qed.


(** X10. For an email that no document has, the three writing operations
    of the repository change nothing in the store. *)
Theorem repository_writes_nothing_for_unknown_email
        (w : world) (email : string) (m : mutation) :
  findOne email (users w) = None ->
  users (snd (mutate clock m email w)) = users w.
Proof.
  intros H. destruct m as [attempt | |]; cbn [mutate].
  - rewrite loginAttempt_run. cbn [snd users].
    apply updateOne_missing, H.
  - rewrite loginSuccess_run. cbn [snd users]. apply updateOne_missing, H.
  - rewrite resetAttempt_run. cbn [snd users]. apply updateOne_missing, H.
Qed.

End Collaborators.

Import Samples.

(** *** Witnesses *)

Lemma session_only_for_accepted_password_witness :
  exists u,
    findOne "alice@example.com" (users (store (alice 2 None))) = Some u
    /\ matcher "secret" (User.password u) = true.
Proof.
  destruct (session_only_for_accepted_password
              (at_ 0) matcher tokens (store (alice 2 None))
              "alice@example.com" "secret"
              {| s_email := "alice@example.com"; s_name := "Alice";
                 user_id := "1"; token := "token-1" |}
              eq_refl)
    as [u [F [_ [P _]]]].
  exists u. split; [exact F | exact P].
Defined.

Lemma login_keeps_counters_non_negative_witness :
  Forall (fun u => 0 <= User.attempt u)
         (users (snd (checkLoginCredentials (at_ 0) matcher tokens
                        "alice@example.com" "guess" (store (alice 2 None))))).
Proof.
  apply (login_keeps_counters_non_negative
           (at_ 0) matcher tokens (store (alice 2 None))
           "alice@example.com" "guess").
  constructor; [cbn; lia | constructor].
Defined.

Lemma at_most_five_failures_reach_the_password_check_witness :
  fst (checkLoginCredentials (at_ 1) matcher tokens
         "alice@example.com" "guess" (store (alice 5 (Some 0))))
  = Ok None.
Proof.
  exact (proj1 (at_most_five_failures_reach_the_password_check
                  (at_ 1) matcher tokens (store (alice 5 (Some 0)))
                  "alice@example.com" "guess" (alice 5 (Some 0))
                  eq_refl (Z.le_refl 5))).
Defined.

Lemma expired_lock_and_right_password_reset_the_counter_witness :
  exists u',
    findOne "alice@example.com"
      (users (snd (checkLoginCredentials (at_ 10001) matcher tokens
                     "alice@example.com" "secret"
                     (store (alice 6 (Some 0))))))
    = Some u'
    /\ User.attempt u' = 0
    /\ User.updatedOn u' = Some (Date.fromTime 0).
Proof.
  exact (proj2 (expired_lock_and_right_password_reset_the_counter
                  (at_ 10001) matcher tokens (store (alice 6 (Some 0)))
                  "alice@example.com" "secret" (alice 6 (Some 0))
                  (Date.fromTime 0)
                  eq_refl eq_refl eq_refl eq_refl eq_refl)).
Defined.

Lemma refused_logins_leave_the_store_witness :
  users (Sessions.logins (at_ 5000) matcher tokens 3
           "alice@example.com" "secret" (store (alice 6 (Some 0))))
  = [alice 6 (Some 0)].
Proof.
  refine (proj1 (refused_logins_leave_the_store
                   (at_ 5000) matcher tokens 3 (store (alice 6 (Some 0)))
                   "alice@example.com" "secret" (alice 6 (Some 0))
                   (Date.fromTime 0)
                   eq_refl eq_refl eq_refl _ (fun _ _ => eq_refl))).
  cbv. discriminate.
Defined.

Lemma failed_logins_lock_the_account_witness :
  fst (checkLoginCredentials (at_ 0) matcher tokens
         "alice@example.com" "secret"
         (Sessions.logins (at_ 0) matcher tokens 6
            "alice@example.com" "guess" (store (alice 0 None))))
  = Throw (errorResponder FORBIDDEN lockedMessage).
Proof.
  exact (proj1 (failed_logins_lock_the_account
                  (at_ 0) matcher tokens 6 (store (alice 0 None))
                  "alice@example.com" "guess" "secret" (alice 0 None)
                  eq_refl eq_refl ltac:(repeat constructor) eq_refl eq_refl)).
Defined.

Lemma repository_writes_nothing_for_unknown_email_witness :
  users (snd (mutate (at_ 0) (ByLoginAttempt 3) "nobody@example.com"
                (store (alice 2 None))))
  = [alice 2 None].
Proof.
  exact (repository_writes_nothing_for_unknown_email
           (at_ 0) (store (alice 2 None)) "nobody@example.com"
           (ByLoginAttempt 3) eq_refl).
Defined.

End AuthMore.

(** * Further properties of the users listing *)

Module UsersMore.

Import Users Paging UsersFacts.

(** ** Slices *)

Lemma relativeIndex_range (len : Z) (n : number) :
  0 <= len -> 0 <= relativeIndex len n <= len.
Proof.
  intros L. destruct n as [z | | |]; cbn; try lia.
  destruct (z <? 0) eqn:E; [| apply Z.ltb_ge in E]; lia.
Qed.

(** A slice is a run of consecutive elements of the array. *)
Lemma slice_block {A} (a : list A) (start end_ : number) :
  exists before after, a = before ++ slice a start end_ ++ after.
Proof.
  unfold slice.
  set (k := Z.to_nat (relativeIndex (Z.of_nat (length a)) start)).
  set (c := Z.to_nat _).
  exists (firstn k a), (skipn c (skipn k a)).
  rewrite (firstn_skipn c (skipn k a)). symmetry. apply firstn_skipn.
Qed.

Lemma slice_window {A} (a : list A) (x y : Z) :
  0 <= x <= y ->
  slice a (Int x) (Int y)
  = firstn (Z.to_nat (y - x)) (skipn (Z.to_nat x) a).
Proof.
  intros R. unfold slice, relativeIndex.
  replace (x <? 0) with false by (symmetry; apply Z.ltb_ge; lia).
  replace (y <? 0) with false by (symmetry; apply Z.ltb_ge; lia).
  set (len := Z.of_nat (length a)).
  destruct (Z_le_gt_dec len x) as [G | G].
  - rewrite (skipn_all2 (n := Z.to_nat x)) by (subst len; lia).
    rewrite !Z.min_r by lia. rewrite Z.sub_diag.
    rewrite firstn_nil. reflexivity.
  - rewrite (Z.min_l x) by lia.
    destruct (Z_le_gt_dec y len) as [H | H].
    + rewrite Z.min_l by lia. reflexivity.
    + rewrite Z.min_r by lia.
      rewrite (firstn_all2 (n := Z.to_nat (len - x)))
        by (rewrite length_skipn; subst len; lia).
      rewrite (firstn_all2 (n := Z.to_nat (y - x)))
        by (rewrite length_skipn; subst len; lia).
      reflexivity.
Qed.

Lemma firstn_plus {A} (a b : nat) (l : list A) :
  firstn (a + b) l = firstn a l ++ firstn b (skipn a l).
Proof.
  revert l. induction a as [| a IH]; intros l; [reflexivity |].
  destruct l as [| x l]; cbn.
  - rewrite firstn_nil. reflexivity.
  - rewrite IH. reflexivity.
Qed.

Lemma usersForPage_window {A} (p s : Z) (l : list A) :
  1 <= p -> 1 <= s ->
  usersForPage (Some (Int p)) (Some (Int s)) l
  = firstn (Z.to_nat s) (skipn (Z.to_nat ((p - 1) * s)) l).
Proof.
  intros P S. unfold usersForPage. cbn [toNumber sub neg add mul].
  rewrite slice_window by nia.
  match goal with
  | |- firstn ?a (skipn ?b _) = firstn ?c (skipn ?d _) =>
      replace a with c by (f_equal; ring);
      replace b with d by (f_equal; ring)
  end.
  reflexivity.
Qed.

(** ** Sorted runs *)

Lemma Sorted_app_r {A} (R : A -> A -> Prop) (a b : list A) :
  Sorted R (a ++ b) -> Sorted R b.
Proof.
  induction a as [| x a IH]; cbn; [auto |].
  intros H. apply IH. apply (Sorted_inv H).
Qed.

Lemma Sorted_app_l {A} (R : A -> A -> Prop) (a b : list A) :
  Sorted R (a ++ b) -> Sorted R a.
Proof.
  induction a as [| x a IH]; cbn; [constructor |].
  intros H. apply Sorted_inv in H. destruct H as [S H].
  constructor; [apply IH, S |].
  destruct a as [| y a]; constructor.
  cbn in H. apply (HdRel_inv H).
Qed.

(** ** Splitting at the colon *)

Lemma split_before_colon (f rest : string) :
  hasColon f = false ->
  split ":" (f ++ String ":" rest)%string = f :: split ":" rest.
Proof.
  induction f as [| c f IH]; cbn; [reflexivity |].
  destruct (Ascii.eqb c ":"); cbn; [discriminate |].
  intros H. rewrite (IH H). reflexivity.
Qed.

Lemma split_without_colon (s : string) :
  hasColon s = false -> split ":" s = [s].
Proof.
  induction s as [| c s IH]; cbn; [reflexivity |].
  destruct (Ascii.eqb c ":"); cbn; [discriminate |].
  intros H. rewrite (IH H). reflexivity.
Qed.

Lemma truthy_with_colon (f rest : string) :
  truthy (Some (f ++ String ":" rest)%string)
  = Some (f ++ String ":" rest)%string.
Proof. destruct f; reflexivity. Qed.

(** X11. A request written [field:value], neither part holding a colon:
    the sort field and order are what the two validators make of [field]
    and [value], and the search field and key are the validated [field]
    and [value] itself. *)
Theorem field_and_value_are_split_at_the_colon
        (page_number page_size : option string) (field value : string) :
  hasColon field = false ->
  hasColon value = false ->
  let asSort :=
    {| Query.page_number := page_number; Query.page_size := page_size;
       Query.search := None;
       Query.sort := Some (field ++ String ":" value)%string |} in
  let asSearch :=
    {| Query.page_number := page_number; Query.page_size := page_size;
       Query.search := Some (field ++ String ":" value)%string;
       Query.sort := None |} in
  sortFieldOf asSort = isValidSortField (Some field)
  /\ sortOrderOf asSort = isValidSortOrder (Some value)
  /\ searchFieldOf asSearch = isValidSearchField (Some field)
  /\ searchKeyOf asSearch = Some value.
Proof.
  intros F V asSort asSearch.
  unfold sortFieldOf, sortOrderOf, searchFieldOf, searchKeyOf.
  subst asSort asSearch. cbn [Query.sort Query.search].
  rewrite truthy_with_colon, (split_before_colon _ _ F),
    (split_without_colon _ V).
  repeat split.
Qed.

(** X12. A [sort] or [search] parameter without a colon, not empty: it is
    the field; the sort order is the default "asc" and the search key is
    [undefined]. *)
Theorem parameter_without_colon_is_the_field
        (page_number page_size : option string) (field : string) :
  hasColon field = false ->
  field <> EmptyString ->
  let asSort :=
    {| Query.page_number := page_number; Query.page_size := page_size;
       Query.search := None; Query.sort := Some field |} in
  let asSearch :=
    {| Query.page_number := page_number; Query.page_size := page_size;
       Query.search := Some field; Query.sort := None |} in
  sortFieldOf asSort = isValidSortField (Some field)
  /\ sortOrderOf asSort = "asc"
  /\ searchFieldOf asSearch = isValidSearchField (Some field)
  /\ searchKeyOf asSearch = None.
Proof.
  intros F N asSort asSearch.
  unfold sortFieldOf, sortOrderOf, searchFieldOf, searchKeyOf.
  subst asSort asSearch. cbn [Query.sort Query.search].
  assert (T : truthy (Some field) = Some field)
    by (destruct field; [contradiction | reflexivity]).
  rewrite T, (split_without_colon _ F). repeat split.
Qed.

(** X13. The pages 1 to [m] of size [pageSize >= 1], one after the other,
    are the first [m * pageSize] users of the sorted array; with as many
    pages as [total_pages] counts they are the whole array: no user is
    skipped and none comes twice. *)
Theorem pages_cover_the_sorted_users
        (A : Type) (m : nat) (pageSize : Z) (sortedUsers : list A) :
  1 <= pageSize ->
  firstPages m pageSize sortedUsers
  = firstn (m * Z.to_nat pageSize) sortedUsers
  /\ (ceilDiv (Int (Z.of_nat (length sortedUsers))) (Int pageSize)
      = Int (Z.of_nat m) ->
      firstPages m pageSize sortedUsers = sortedUsers).
Proof.
  intros S.
  assert (E : firstPages m pageSize sortedUsers
              = firstn (m * Z.to_nat pageSize) sortedUsers).
  { unfold firstPages. induction m as [| m IH]; [reflexivity |].
    rewrite seq_S, map_app, concat_app, IH. cbn [map concat Nat.add].
    rewrite app_nil_r, usersForPage_window by lia.
    replace (Z.to_nat ((Z.of_nat m + 1 - 1) * pageSize))
      with (m * Z.to_nat pageSize)%nat by nia.
    rewrite <- firstn_plus. f_equal. lia. }
  split; [exact E |].
  intros T. rewrite E. apply firstn_all2.
  unfold ceilDiv in T.
  replace (pageSize =? 0) with false in T by (symmetry; apply Z.eqb_neq; lia).
  injection T as T.
  set (n := Z.of_nat (length sortedUsers)) in *.
  pose proof (Z.mul_div_le (- n) pageSize ltac:(lia)) as B.
  nia.
Qed.

(** ** Ties *)

Section Stable.

Variable A : Type.
Variable compare : A -> A -> option Z.
Variable p : A -> bool.

(** The comparator never asks for one element of [p] after another. *)
Hypothesis compare_tie :
  forall x y c,
    p x = true -> p y = true -> compare x y = Some c -> c <= 0.

Lemma insert_filter (x : A) (l l' : list A) :
  insert compare x l = Some l' -> filter p l' = filter p (x :: l).
Proof.
  revert l'. induction l as [| y rest IH]; cbn [insert]; intros l'.
  - intros [= <-]. reflexivity.
  - destruct (compare x y) as [c |] eqn:E; [| discriminate].
    destruct (c >? 0) eqn:G.
    + destruct (insert compare x rest) as [rest' |]; [| discriminate].
      intros [= <-]. specialize (IH _ eq_refl).
      cbn [filter] in IH |- *. rewrite IH.
      destruct (p x) eqn:Px; [| reflexivity].
      destruct (p y) eqn:Py; [| reflexivity].
      apply Z.gtb_lt in G. pose proof (compare_tie x y c Px Py E). lia.
    + intros [= <-]. reflexivity.
Qed.

Lemma sort_filter (l l' : list A) :
  sort compare l = Some l' -> filter p l' = filter p l.
Proof.
  revert l'. induction l as [| x rest IH]; cbn [sort]; intros l'.
  - intros [= <-]. reflexivity.
  - destruct (sort compare rest) as [sorted |]; [| discriminate].
    intros H. rewrite (insert_filter _ _ _ H).
    cbn [filter]. rewrite (IH _ eq_refl). reflexivity.
Qed.

End Stable.

Section Listing.

Variable localeCompare : string -> string -> Z.
Variable usersService_getUsers :
  option number -> option number -> option string -> option string ->
  string -> string -> error + list User.t.

Local Abbreviation getUsers :=
  (Users.getUsers localeCompare usersService_getUsers).
Local Abbreviation compareUsers := (Users.compareUsers localeCompare).

(** The answer of the users service to the controller. *)
Local Abbreviation found request :=
  (usersService_getUsers
     (orNull (parseInt (Query.page_number request)))
     (orNull (parseInt (Query.page_size request)))
     (searchFieldOf request) (searchKeyOf request)
     (sortFieldOf request) (sortOrderOf request)).

(** X14. [getUsers] passes an error to [next] exactly when the users
    service threw it: the sort never throws, and nothing else fails. *)
Theorem only_the_service_error_is_passed_on
        (request : Query.t) (e : error) :
  getUsers request = Next e <-> found request = inl e.
Proof.
  destruct (found request) as [e' | filteredUsers] eqn:F.
  - unfold Users.getUsers. rewrite F. split; intros [= ->]; reflexivity.
  - destruct (getUsers_run localeCompare usersService_getUsers
                request filteredUsers F) as [sorted [_ [_ R]]].
    rewrite R. split; discriminate.
Qed.

(** The response when the service answers, with the place of the page
    in the sorted array. *)
Lemma getUsers_page (request : Query.t) (filteredUsers : list User.t) :
  found request = inr filteredUsers ->
  exists sortedUsers before after,
    sort (compareUsers (sortOrderOf request) (sortFieldOf request))
      filteredUsers = Some sortedUsers
    /\ Permutation filteredUsers sortedUsers
    /\ sortedUsers
       = before
         ++ usersForPage (orNull (parseInt (Query.page_number request)))
              (orNull (parseInt (Query.page_size request))) sortedUsers
         ++ after
    /\ getUsers request
       = let pageNumber := orNull (parseInt (Query.page_number request)) in
         let pageSize := orNull (parseInt (Query.page_size request)) in
         let totalUsers := Int (Z.of_nat (length filteredUsers)) in
         Json 200
           {| page_number := pageNumber;
              page_size := pageSize;
              count := totalUsers;
              total_pages := ceilDiv totalUsers (toNumber pageSize);
              has_previous_page := gt (toNumber pageNumber) (Int 1);
              has_next_page :=
                lt (add (mul (sub (toNumber pageNumber) (Int 1))
                           (toNumber pageSize))
                      (toNumber pageSize))
                   totalUsers;
              users := usersForPage pageNumber pageSize sortedUsers |}.
Proof.
  intros F.
  destruct (getUsers_run localeCompare usersService_getUsers
              request filteredUsers F) as [sorted [E [P R]]].
  unfold usersForPage.
  destruct (slice_block sorted
              (mul (sub (toNumber (orNull (parseInt (Query.page_number request))))
                      (Int 1))
                 (toNumber (orNull (parseInt (Query.page_size request)))))
              (add (mul (sub (toNumber (orNull (parseInt (Query.page_number request))))
                           (Int 1))
                      (toNumber (orNull (parseInt (Query.page_size request)))))
                 (toNumber (orNull (parseInt (Query.page_size request))))))
    as [before [after B]].
  exists sorted, before, after. repeat split; auto.
Qed.

(** X15. When the service answers, whatever the page parameters are, the
    response is 200, [count] is the number of users the service found,
    [page_number] and [page_size] are the parameters as [parseInt] reads
    them (rounded to a double), [null] when the parameter is absent, is
    not a number or is zero, and [users] is a run of consecutive users
    of the sorted array, itself a rearrangement of the users found:
    every user of the page was found by the service, none more often
    than found. *)
Theorem page_is_a_run_of_the_sorted_users
        (request : Query.t) (filteredUsers : list User.t) :
  found request = inr filteredUsers ->
  exists body sortedUsers before after,
    getUsers request = Json 200 body
    /\ count body = Int (Z.of_nat (length filteredUsers))
    /\ page_number body = orNull (parseInt (Query.page_number request))
    /\ page_size body = orNull (parseInt (Query.page_size request))
    /\ sort (compareUsers (sortOrderOf request) (sortFieldOf request))
         filteredUsers = Some sortedUsers
    /\ Permutation filteredUsers sortedUsers
    /\ users body
       = usersForPage (page_number body) (page_size body) sortedUsers
    /\ sortedUsers = before ++ users body ++ after
    /\ (Query.page_number request = None -> page_number body = None)
    /\ (Query.page_size request = None -> page_size body = None)
    /\ (parseInt (Query.page_number request) = NaN
        \/ parseInt (Query.page_number request) = Int 0 ->
        page_number body = None)
    /\ (parseInt (Query.page_size request) = NaN
        \/ parseInt (Query.page_size request) = Int 0 ->
        page_size body = None).
Proof.
  intros F.
  destruct (getUsers_page request filteredUsers F)
    as [sorted [before [after [E [P [B R]]]]]].
  cbn zeta in R.
  eexists _, sorted, before, after. split; [exact R |].
  cbn [count page_number page_size users].
  repeat split; auto.
  - intros ->. reflexivity.
  - intros ->. reflexivity.
  - intros [-> | ->]; reflexivity.
  - intros [-> | ->]; reflexivity.
Qed.

(** X16. With a [localeCompare] that never puts two strings each before
    the other, the users of the response are in the order asked for: each
    one may stand before the next by the sort field and order in use. *)
Theorem page_is_in_order
        (request : Query.t) (filteredUsers : list User.t)
        (body : responseData) :
  (forall x y, localeCompare x y > 0 -> localeCompare y x <= 0) ->
  found request = inr filteredUsers ->
  getUsers request = Json 200 body ->
  Sorted (ordered localeCompare (sortOrderOf request) (sortFieldOf request))
         (users body).
Proof.
  intros Asym F G.
  destruct (getUsers_page request filteredUsers F)
    as [sorted [before [after [E [P [B R]]]]]].
  cbn zeta in R. rewrite R in G. injection G as <-. cbn [users].
  pose proof (sortedUsers_sorted localeCompare _ _ _ _ Asym E) as S.
  rewrite B in S.
  apply Sorted_app_r in S. apply Sorted_app_l in S. exact S.
Qed.

(** X17. A page number [p >= 1] and a page size [s >= 1], [n] users
    found: the response holds the [s] users that follow the first
    [(p - 1) * s] of the sorted array, as many as are left, at most [s];
    [total_pages] is [n / s] rounded up, [has_previous_page] says
    [p > 1] and [has_next_page] says [p * s < n]. *)
Theorem page_of_a_positive_page_request
        (request : Query.t) (filteredUsers : list User.t) (p s : Z) :
  parseInt (Query.page_number request) = Int p ->
  parseInt (Query.page_size request) = Int s ->
  1 <= p ->
  1 <= s ->
  found request = inr filteredUsers ->
  let n := Z.of_nat (length filteredUsers) in
  exists sortedUsers,
    sort (compareUsers (sortOrderOf request) (sortFieldOf request))
      filteredUsers = Some sortedUsers
    /\ getUsers request
       = Json 200
           {| page_number := Some (Int p);
              page_size := Some (Int s);
              count := Int n;
              total_pages := Int ((n + s - 1) / s);
              has_previous_page := 1 <? p;
              has_next_page := p * s <? n;
              users :=
                firstn (Z.to_nat s)
                  (skipn (Z.to_nat ((p - 1) * s)) sortedUsers) |}
    /\ Z.of_nat (length (firstn (Z.to_nat s)
                           (skipn (Z.to_nat ((p - 1) * s)) sortedUsers)))
       = Z.min s (Z.max 0 (n - (p - 1) * s)).
Proof.
  intros Hp Hs P S F n.
  destruct (getUsers_page request filteredUsers F)
    as [sorted [before [after [E [Pm [_ R]]]]]].
  assert (Np : orNull (Int p) = Some (Int p)).
  { unfold orNull. replace (p =? 0) with false; [reflexivity |].
    symmetry. apply Z.eqb_neq. lia. }
  assert (Ns : orNull (Int s) = Some (Int s)).
  { unfold orNull. replace (s =? 0) with false; [reflexivity |].
    symmetry. apply Z.eqb_neq. lia. }
  rewrite Hp, Hs, Np, Ns in R. cbn zeta in R.
  exists sorted. split; [exact E |]. split.
  - rewrite R, usersForPage_window by assumption.
    cbn [toNumber sub neg add mul ceilDiv gt lt].
    replace (s =? 0) with false by (symmetry; apply Z.eqb_neq; lia).
    fold n.
    replace ((p + - (1)) * s + s) with (p * s) by ring.
    replace (- (- n / s)) with ((n + s - 1) / s); [reflexivity |].
    apply Z.opp_inj. rewrite Z.opp_involutive.
    apply (Z.div_unique (- n) s (- ((n + s - 1) / s))
             (s - 1 - (n + s - 1) mod s)).
    + left. pose proof (Z.mod_pos_bound (n + s - 1) s ltac:(lia)). lia.
    + pose proof (Z.div_mod (n + s - 1) s ltac:(lia)). lia.
  - rewrite length_firstn, length_skipn.
    rewrite <- (Permutation_length Pm). fold n. nia.
Qed.

(** X22. Users with the same value of the sort field stay in the order in
    which the service returned them, as long as [localeCompare] finds a
    string equal to itself: the sort is stable. *)
Theorem ties_keep_the_order_of_the_service
        (sortOrder sortField value : string)
        (filteredUsers sortedUsers : list User.t) :
  (forall x, localeCompare x x = 0) ->
  sort (compareUsers sortOrder sortField) filteredUsers = Some sortedUsers ->
  filter (hasValue sortField value) sortedUsers
  = filter (hasValue sortField value) filteredUsers.
Proof.
  intros Refl H.
  apply (sort_filter _ (compareUsers sortOrder sortField)); [| exact H].
  intros x y c Px Py E. unfold hasValue in Px, Py.
  unfold Users.compareUsers in E.
  destruct (prop x sortField) as [vx |]; [| discriminate].
  destruct (prop y sortField) as [vy |]; [| discriminate].
  apply String.eqb_eq in Px, Py. subst vx vy.
  destruct (String.eqb sortOrder "asc"); injection E as <-;
    rewrite Refl; lia.
Qed.

End Listing.

Import Samples.

(** *** Witnesses *)

Lemma field_and_value_are_split_at_the_colon_witness :
  sortFieldOf (request None None None (Some "name:desc")) = "name"
  /\ sortOrderOf (request None None None (Some "name:desc")) = "desc"
  /\ searchFieldOf (request None None (Some "name:desc") None) = Some "name"
  /\ searchKeyOf (request None None (Some "name:desc") None) = Some "desc".
Proof.
  exact (field_and_value_are_split_at_the_colon
           None None "name" "desc" eq_refl eq_refl).
Defined.

Lemma parameter_without_colon_is_the_field_witness :
  sortFieldOf (request None None None (Some "name")) = "name"
  /\ sortOrderOf (request None None None (Some "name")) = "asc"
  /\ searchFieldOf (request None None (Some "name") None) = Some "name"
  /\ searchKeyOf (request None None (Some "name") None) = None.
Proof.
  refine (parameter_without_colon_is_the_field
            None None "name" eq_refl _).
  discriminate.
Defined.

Lemma pages_cover_the_sorted_users_witness :
  firstPages 3 2 five = five.
Proof.
  apply (proj2 (pages_cover_the_sorted_users User.t 3 2 five
                  ltac:(lia))).
  reflexivity.
Defined.

Lemma only_the_service_error_is_passed_on_witness :
  Users.getUsers byCodeUnits (fun _ _ _ _ _ _ => inl TypeError)
    (request None None None None)
  = Next TypeError.
Proof.
  apply (proj2 (only_the_service_error_is_passed_on
                  byCodeUnits (fun _ _ _ _ _ _ => inl TypeError)
                  (request None None None None) TypeError)).
  reflexivity.
Defined.

Lemma page_is_a_run_of_the_sorted_users_witness :
  exists body sortedUsers before after,
    Users.getUsers byCodeUnits (finds five)
      (request (Some "9007199254740993") None None (Some "name:desc"))
    = Json 200 body
    /\ page_number body = Some (Int 9007199254740992)
    /\ page_size body = None
    /\ Permutation five sortedUsers
    /\ sortedUsers = before ++ users body ++ after.
Proof.
  destruct (page_is_a_run_of_the_sorted_users
              byCodeUnits (finds five)
              (request (Some "9007199254740993") None None
                 (Some "name:desc"))
              five eq_refl)
    as (body & sorted & before & after
        & G & _ & N & _ & _ & P & _ & B & _ & Z & _).
  exists body, sorted, before, after.
  split; [exact G |]. split; [exact N |]. split; [apply Z; reflexivity |].
  split; [exact P | exact B].
Defined.

Lemma page_is_in_order_witness :
  Sorted (ordered byCodeUnits "asc" "name")
         [member "5" "carol"; member "3" "dave"].
Proof.
  exact (page_is_in_order
           byCodeUnits (finds five)
           (request (Some "2") (Some "2") None (Some "name:asc")) five
           {| page_number := Some (Int 2);
              page_size := Some (Int 2);
              count := Int 5;
              total_pages := Int 3;
              has_previous_page := true;
              has_next_page := true;
              users := [member "5" "carol"; member "3" "dave"] |}
           byCodeUnits_asym eq_refl eq_refl).
Defined.

Lemma byCodeUnits_refl (x : string) : byCodeUnits x x = 0.
Proof.
  unfold byCodeUnits.
  pose proof (String.compare_antisym x x) as H.
  destruct (String.compare x x); [reflexivity | discriminate | discriminate].
Qed.

Lemma ties_keep_the_order_of_the_service_witness :
  filter (hasValue "name" "bob")
    [member "1" "alice"; member "3" "bob"; member "2" "bob"]
  = [member "3" "bob"; member "2" "bob"].
Proof.
  exact (ties_keep_the_order_of_the_service
           byCodeUnits "asc" "name" "bob"
           [member "3" "bob"; member "1" "alice"; member "2" "bob"]
           [member "1" "alice"; member "3" "bob"; member "2" "bob"]
           byCodeUnits_refl eq_refl).
Defined.

Lemma page_of_a_positive_page_request_witness :
  exists sortedUsers,
    Users.getUsers byCodeUnits (finds five)
      (request (Some "3") (Some "2") None None)
    = Json 200
        {| page_number := Some (Int 3);
           page_size := Some (Int 2);
           count := Int 5;
           total_pages := Int 3;
           has_previous_page := true;
           has_next_page := false;
           users := firstn 2 (skipn 4 sortedUsers) |}.
Proof.
  destruct (page_of_a_positive_page_request
              byCodeUnits (finds five)
              (request (Some "3") (Some "2") None None) five 3 2
              eq_refl eq_refl ltac:(lia) ltac:(lia) eq_refl)
    as [sorted [_ [G _]]].
  exists sorted. exact G.
Defined.

End UsersMore.

(** * Properties of the other handlers *)

Module ControllersFacts.

Import Controllers.

Lemma strictEquals_eq (a b : option string) :
  strictEquals a b = true <-> a = b.
Proof.
  destruct a as [x |], b as [y |]; cbn; split; try discriminate; auto.
  - intros H. apply String.eqb_eq in H. congruence.
  - intros [= ->]. apply String.eqb_refl.
Qed.

(** A call that is not among those of a list of at most two other
    calls. *)
Ltac absent :=
  repeat match goal with
         | H : In _ [] |- _ => destruct H
         | H : In _ (_ :: _) |- _ => destruct H as [H | H]; try discriminate H
         end.

Ltac settle :=
  repeat split; intros; cbn [app] in *; absent;
  try discriminate; try tauto; try congruence;
  try (simpl; tauto); try (intuition (try discriminate; try congruence)).

Section Service.

Variable S : Type.
Variable U : Type.
Variable usersService_getUser : string -> operation S (option U).
Variable usersService_emailIsRegistered :
  option string -> operation S bool.
Variable usersService_createUser :
  option string -> option string -> option string -> operation S bool.
Variable usersService_updateUser :
  string -> option string -> option string -> operation S bool.
Variable usersService_deleteUser : string -> operation S bool.
Variable usersService_checkPassword :
  string -> option string -> operation S bool.
Variable usersService_changePassword :
  string -> option string -> operation S bool.

Local Abbreviation createUser :=
  (Controllers.createUser S U usersService_emailIsRegistered
     usersService_createUser).
Local Abbreviation updateUser :=
  (Controllers.updateUser S U usersService_emailIsRegistered
     usersService_updateUser).
Local Abbreviation changePassword :=
  (Controllers.changePassword S U usersService_checkPassword
     usersService_changePassword).
Local Abbreviation getUser := (Controllers.getUser S U usersService_getUser).
Local Abbreviation deleteUser :=
  (Controllers.deleteUser S U usersService_deleteUser).

Ltac handler :=
  unfold Controllers.createUser, Controllers.updateUser,
    Controllers.changePassword, Controllers.getUser, Controllers.deleteUser,
    handle, bind, invoke, throw, ret;
  cbn [service calls fst snd negb].

(** X18. [createUser] calls [usersService.createUser] exactly when the
    password equals its confirmation and [emailIsRegistered] answered
    false, and it answers 200, with the name and email of the request,
    exactly when moreover [usersService.createUser] answered true. When
    the confirmation differs no call is made at all and the error is
    INVALID_PASSWORD. *)
Theorem createUser_needs_confirmation_and_a_free_email
        (request : Request.t) (w : world S) :
  let name := Request.name request in
  let email := Request.email request in
  let password := Request.password request in
  let confirmed :=
    strictEquals password (Request.password_confirm request) = true in
  let free :=
    fst (usersService_emailIsRegistered email (service w)) = inr false in
  let created :=
    fst (usersService_createUser name email password
           (snd (usersService_emailIsRegistered email (service w))))
    = inr true in
  exists made,
    calls (snd (createUser request w)) = calls w ++ made
    /\ (In (CreateUser name email password) made <-> confirmed /\ free)
    /\ (fst (createUser request w) = Json 200 (NameAndEmail name email)
        <-> confirmed /\ free /\ created)
    /\ (forall b, fst (createUser request w) = Json 200 b ->
                  b = NameAndEmail name email)
    /\ (~ confirmed ->
        made = []
        /\ service (snd (createUser request w)) = service w
        /\ fst (createUser request w)
           = Next (errorResponder INVALID_PASSWORD
                     "Password confirmation mismatched")).
Proof.
  intros name email password confirmed free created.
  subst confirmed free created name email password. handler.
  destruct (strictEquals (Request.password request)
              (Request.password_confirm request)); cbn [negb].
  - destruct (usersService_emailIsRegistered (Request.email request)
                (service w)) as [[e | [|]] s1]; cbn [fst snd service calls].
    + eexists. split; [reflexivity | settle].
    + eexists. split; [reflexivity | settle].
    + destruct (usersService_createUser (Request.name request)
                  (Request.email request) (Request.password request) s1)
        as [[e | [|]] s2]; cbn [fst snd service calls negb];
        rewrite <- app_assoc; (eexists; split; [reflexivity | settle]).
  - exists []. rewrite app_nil_r. split; [reflexivity | settle].
Qed.

(** X19. [updateUser] calls [usersService.updateUser] exactly when
    [emailIsRegistered] answered false for the email of the request, and
    answers 200 with the id exactly when moreover the update answered
    true. When the email is registered, to whomever, the error is
    EMAIL_ALREADY_TAKEN and [emailIsRegistered] is the only call made. *)
Theorem updateUser_needs_a_free_email
        (request : Request.t) (w : world S) :
  let id := Request.id request in
  let name := Request.name request in
  let email := Request.email request in
  let asked := usersService_emailIsRegistered email (service w) in
  let updated :=
    fst (usersService_updateUser id name email (snd asked)) = inr true in
  exists made,
    calls (snd (updateUser request w)) = calls w ++ made
    /\ (In (UpdateUser id name email) made <-> fst asked = inr false)
    /\ (fst (updateUser request w) = Json 200 (IdBody id)
        <-> fst asked = inr false /\ updated)
    /\ (forall b, fst (updateUser request w) = Json 200 b -> b = IdBody id)
    /\ (fst asked = inr true ->
        made = [EmailIsRegistered email]
        /\ service (snd (updateUser request w)) = snd asked
        /\ fst (updateUser request w)
           = Next (errorResponder EMAIL_ALREADY_TAKEN
                     "Email is already registered")).
Proof.
  intros id name email asked updated.
  subst updated asked id name email. handler.
  destruct (usersService_emailIsRegistered (Request.email request)
              (service w)) as [[e | [|]] s1]; cbn [fst snd service calls].
  - eexists. split; [reflexivity | settle].
  - eexists. split; [reflexivity | settle].
  - destruct (usersService_updateUser (Request.id request)
                (Request.name request) (Request.email request) s1)
      as [[e | [|]] s2]; cbn [fst snd service calls negb];
      rewrite <- app_assoc; (eexists; split; [reflexivity | settle]).
Qed.

(** X20. [changePassword] calls [usersService.changePassword] exactly when
    the new password equals its confirmation and [checkPassword] answered
    true for the old one, and answers 200 with the id exactly when
    moreover the change answered true. When the confirmation differs no
    call is made and the error is INVALID_PASSWORD; when the old password
    is refused, [checkPassword] is the only call and the error is
    INVALID_CREDENTIALS. *)
Theorem changePassword_needs_confirmation_and_the_old_password
        (request : Request.t) (w : world S) :
  let id := Request.id request in
  let new := Request.password_new request in
  let confirmed :=
    strictEquals new (Request.password_confirm request) = true in
  let checked :=
    usersService_checkPassword id (Request.password_old request)
      (service w) in
  let changed :=
    fst (usersService_changePassword id new (snd checked)) = inr true in
  exists made,
    calls (snd (changePassword request w)) = calls w ++ made
    /\ (In (ChangePassword id new) made
        <-> confirmed /\ fst checked = inr true)
    /\ (fst (changePassword request w) = Json 200 (IdBody id)
        <-> confirmed /\ fst checked = inr true /\ changed)
    /\ (~ confirmed ->
        made = []
        /\ service (snd (changePassword request w)) = service w
        /\ fst (changePassword request w)
           = Next (errorResponder INVALID_PASSWORD
                     "Password confirmation mismatched"))
    /\ (confirmed -> fst checked = inr false ->
        made = [CheckPassword id (Request.password_old request)]
        /\ fst (changePassword request w)
           = Next (errorResponder INVALID_CREDENTIALS "Wrong password")).
Proof.
  intros id new confirmed checked changed.
  subst changed checked confirmed id new. handler.
  destruct (strictEquals (Request.password_new request)
              (Request.password_confirm request)); cbn [negb].
  - destruct (usersService_checkPassword (Request.id request)
                (Request.password_old request) (service w))
      as [[e | [|]] s1]; cbn [fst snd service calls negb].
    + eexists. split; [reflexivity | settle].
    + destruct (usersService_changePassword (Request.id request)
                  (Request.password_new request) s1)
        as [[e | [|]] s2]; cbn [fst snd service calls negb];
        rewrite <- app_assoc; (eexists; split; [reflexivity | settle]).
    + eexists. split; [reflexivity | settle].
  - exists []. rewrite app_nil_r. split; [reflexivity | settle].
Qed.

(** X21. [getUser] and [deleteUser] make one call each, with the id of the
    request. [getUser] answers 200 with a user exactly when the service
    returned that user, and passes on UNPROCESSABLE_ENTITY "Unknown user"
    when it returned none; [deleteUser] answers 200 with the id exactly
    when the service answered true; an error the service throws is passed
    to [next] as it is. *)
Theorem getUser_and_deleteUser_answer_what_the_service_says
        (request : Request.t) (w : world S) :
  let id := Request.id request in
  let got := usersService_getUser id (service w) in
  let deleted := usersService_deleteUser id (service w) in
  (calls (snd (getUser request w)) = calls w ++ [GetUser id]
   /\ service (snd (getUser request w)) = snd got
   /\ (forall u, fst (getUser request w) = Json 200 (UserBody u)
                 <-> fst got = inr (Some u))
   /\ (fst got = inr None ->
       fst (getUser request w)
       = Next (errorResponder UNPROCESSABLE_ENTITY "Unknown user"))
   /\ (forall e, fst got = inl e -> fst (getUser request w) = Next e))
  /\ (calls (snd (deleteUser request w)) = calls w ++ [DeleteUser id]
      /\ service (snd (deleteUser request w)) = snd deleted
      /\ (fst (deleteUser request w) = Json 200 (IdBody id)
          <-> fst deleted = inr true)
      /\ (fst deleted = inr false ->
          fst (deleteUser request w)
          = Next (errorResponder UNPROCESSABLE_ENTITY
                    "Failed to delete user"))
      /\ (forall e, fst deleted = inl e ->
                    fst (deleteUser request w) = Next e)).
Proof.
  intros id got deleted. subst got deleted id. handler. split.
  - destruct (usersService_getUser (Request.id request) (service w))
      as [[e | [u |]] s1]; cbn [fst snd service calls]; settle.
  - destruct (usersService_deleteUser (Request.id request) (service w))
      as [[e | [|]] s1]; cbn [fst snd service calls negb]; settle.
Qed.

End Service.

Import Directory.

(** *** Witnesses *)

Lemma createUser_needs_confirmation_and_a_free_email_witness :
  fst (Controllers.createUser _ string emailIsRegistered createUser
         (signUp "bob@example.com" "secret" "secret") start)
  = Json 200 (NameAndEmail (Some "Bob") (Some "bob@example.com")).
Proof.
  destruct (createUser_needs_confirmation_and_a_free_email
              _ string emailIsRegistered createUser
              (signUp "bob@example.com" "secret" "secret") start)
    as [made [_ [_ [R _]]]].
  apply R. repeat split.
Defined.

Lemma updateUser_needs_a_free_email_witness :
  fst (Controllers.updateUser _ string emailIsRegistered updateUser
         (rename "1" "Alice" "alice@example.com") start)
  = Next (errorResponder EMAIL_ALREADY_TAKEN "Email is already registered").
Proof.
  destruct (updateUser_needs_a_free_email
              _ string emailIsRegistered updateUser
              (rename "1" "Alice" "alice@example.com") start)
    as [made [_ [_ [_ [_ R]]]]].
  apply R. reflexivity.
Defined.

Lemma changePassword_needs_confirmation_and_the_old_password_witness :
  fst (Controllers.changePassword _ string checkPassword changePassword
         (newPassword "1" "guess" "new" "new") start)
  = Next (errorResponder INVALID_CREDENTIALS "Wrong password").
Proof.
  destruct (changePassword_needs_confirmation_and_the_old_password
              _ string checkPassword changePassword
              (newPassword "1" "guess" "new" "new") start)
    as [made [_ [_ [_ [_ R]]]]].
  apply R; reflexivity.
Defined.

Lemma getUser_and_deleteUser_answer_what_the_service_says_witness :
  fst (Controllers.getUser _ string getUser
         (rename "2" "Bob" "bob@example.com") start)
  = Next (errorResponder UNPROCESSABLE_ENTITY "Unknown user").
Proof.
  destruct (getUser_and_deleteUser_answer_what_the_service_says
              _ string getUser deleteUser
              (rename "2" "Bob" "bob@example.com") start)
    as [[_ [_ [_ [R _]]]] _].
  apply R. reflexivity.
Defined.

End ControllersFacts.
